(** * Medical-DS front end and ingestion contract: a shallow embedding

    The Angular front end of the Medical Data Space project
  ([medical-record.service.ts], the upload, patients, EMR and population
  dashboard components) is embedded as Rocq functions over explicit state.
  A JavaScript string is a Stdlib string: its characters of Basic Latin as
  they are, any other character by its UTF-8 bytes (on well-formed strings,
  equality and containment are then what they are on the UTF-16 code units
  of the engine). A JavaScript exception is
  an outcome of the state-and-exception monad [M]; an HTTP observable is
  cold, so a request is recorded as sent only when a component subscribes
  to it. *)

From Stdlib Require Import String Ascii ZArith List Lia Bool.
From Stdlib Require Import DecimalString.
From stdpp Require Import base decidable option list strings.

Import ListNotations.
Set Warnings "-register-all".
Local Open Scope string_scope.
Local Open Scope list_scope.

(** ** JavaScript values used by the front end *)

Module Js.

(** [Error(message)] as thrown by [throw new Error(...)]. *)
Inductive Error := MkError (message : string).

(** ToBoolean on a string: only the empty string is falsy. *)
Definition truthy (s : string) : bool :=
  match s with
  | EmptyString => false
  | String _ _ => true
  end.

(** ToBoolean on [T | null] where [T] is an object type: every object is
    truthy, also an empty [FileList]. *)
Definition truthy_obj {A : Type} (o : option A) : bool :=
  match o with
  | Some _ => true
  | None => false
  end.

(** [a ?? b] *)
Definition nullish {A : Type} (o : option A) (d : A) : A :=
  match o with
  | Some a => a
  | None => d
  end.

Definition is_upper (c : ascii) : bool :=
  (65 <=? nat_of_ascii c)%nat && (nat_of_ascii c <=? 90)%nat.

Definition lower_char (c : ascii) : ascii :=
  if is_upper c then ascii_of_nat (nat_of_ascii c + 32) else c.

(** Lower-casing of Basic Latin: A..Z go to a..z, every other character
    is kept. *)
Fixpoint lowerBasicLatin (s : string) : string :=
  match s with
  | EmptyString => EmptyString
  | String c s' => String (lower_char c) (lowerBasicLatin s')
  end.

(** A string of Basic Latin (ASCII) characters only. *)
Fixpoint isBasicLatin (s : string) : bool :=
  match s with
  | EmptyString => true
  | String c s' => (nat_of_ascii c <? 128)%nat && isBasicLatin s'
  end.

(** [String.prototype.toLowerCase] is the Unicode lower-casing of the
    engine, which is not code of the repository (and depends on context:
    a capital sigma lowers to the final sigma at the end of a word). It is
    a parameter of the model; what is fixed of it is its effect on strings
    of Basic Latin, where it lowers A..Z and keeps the rest. *)
Class Lowering := {
  toLowerCase : string -> string;
  toLowerCase_basicLatin :
    forall s, isBasicLatin s = true -> toLowerCase s = lowerBasicLatin s
}.

(** A lowering to run examples with. It is [toLowerCase] on the strings
    of Basic Latin and on the two Greek words of the examples, which the
    engine lowers by the rule of the final sigma: [ΑΣΑ] to [ασα] and [ΑΣ]
    to [ας]. No example uses it on another string. *)
Definition lowerSample (s : string) : string :=
  if String.eqb s "ΑΣΑ" then "ασα"
  else if String.eqb s "ΑΣ" then "ας"
  else lowerBasicLatin s.

Definition sampleLowering : Lowering.
Proof.
  refine {| toLowerCase := lowerSample |}.
  intros s H. unfold lowerSample.
  destruct (String.eqb_spec s "ΑΣΑ") as [E | _]; [rewrite E in H; discriminate H |].
  destruct (String.eqb_spec s "ΑΣ") as [E | _]; [rewrite E in H; discriminate H |].
  reflexivity.
Defined.

(** [s.startsWith(q)] *)
Fixpoint startsWith (s q : string) : bool :=
  match q, s with
  | EmptyString, _ => true
  | String _ _, EmptyString => false
  | String b q', String a s' => if Ascii.eqb a b then startsWith s' q' else false
  end.

(** [s.includes(q)]: [q] occurs in [s] at some position. *)
Fixpoint includes (s q : string) : bool :=
  startsWith s q ||
  match s with
  | EmptyString => false
  | String _ s' => includes s' q
  end.

(** ToString on an integral number, as a template literal does it. *)
Definition toStringZ (z : Z) : string :=
  NilZero.string_of_int (Z.to_int z).

End Js.

(** ** State and exceptions *)

Inductive Outcome (A : Type) : Type :=
| Ret (a : A)
| Threw (e : Js.Error).
Arguments Ret {A} a.
Arguments Threw {A} e.

(** A computation over a mutable state [S] that returns or throws; what it
  wrote before throwing stays written. *)
Definition M (S A : Type) : Type := S -> Outcome A * S.

Definition ret {S A} (a : A) : M S A := fun s => (Ret a, s).

Definition throw {S A} (e : Js.Error) : M S A := fun s => (Threw e, s).

Definition bind {S A B} (m : M S A) (k : A -> M S B) : M S B :=
  fun s =>
    match m s with
    | (Ret a, s') => k a s'
    | (Threw e, s') => (Threw e, s')
    end.

Definition gets {S A} (f : S -> A) : M S A := fun s => (Ret (f s), s).

Definition modify {S} (f : S -> S) : M S unit := fun s => (Ret tt, f s).

(** [forEach] over an array. *)
Fixpoint forEach {S A} (l : list A) (f : A -> M S unit) : M S unit :=
  match l with
  | [] => ret tt
  | x :: l' => bind (f x) (fun _ => forEach l' f)
  end.

(** Run a computation on one component of a pair. *)
Definition onFst {S T A} (m : M S A) : M (S * T) A :=
  fun st => let '(o, s') := m (fst st) in (o, (s', snd st)).

Definition onSnd {S T A} (m : M T A) : M (S * T) A :=
  fun st => let '(o, t') := m (snd st) in (o, (fst st, t')).

Declare Scope js_scope.
Delimit Scope js_scope with js.
Notation "'let*' x ':=' c 'in' k" := (bind c (fun x => k))
  (at level 10, x name, c at level 100, k at level 200) : js_scope.
Notation "c ';;' k" := (bind c (fun _ => k))
  (at level 100, k at level 200, right associativity) : js_scope.
Local Open Scope js_scope.

Definition threw {A S} (r : Outcome A * S) : Prop :=
  match fst r with
  | Threw _ => True
  | Ret _ => False
  end.

(** ** HTTP requests *)

Module Http.

(** A [File] of a file input: its name and its bytes. *)
Record File := { name : string; bytes : string }.

(** One [FormData] entry value: a string, or a file with its file name. *)
Inductive FormValue :=
| FText (v : string)
| FFile (f : File) (filename : string).

Definition FormData := list (string * FormValue).

(** [formData.append(key, value)] *)
Definition append (key : string) (v : FormValue) (fd : FormData) : FormData :=
  fd ++ [(key, v)].

Definition HttpParams := list (string * string).

Definition newHttpParams : HttpParams := [].

(** [params.set(key, value)]: replaces the value of [key], or adds it. *)
Fixpoint set (key value : string) (ps : HttpParams) : HttpParams :=
  match ps with
  | [] => [(key, value)]
  | (k, v) :: ps' =>
      if String.eqb k key then (key, value) :: ps'
      else (k, v) :: set key value ps'
  end.

Fixpoint get (key : string) (ps : HttpParams) : option string :=
  match ps with
  | [] => None
  | (k, v) :: ps' => if String.eqb k key then Some v else get key ps'
  end.

(** What [http.get] and [http.post] return: a cold observable that, once
    subscribed to, sends this request. *)
Inductive Request :=
| GET (url : string) (params : HttpParams)
| POST (url : string) (body : FormData).

Definition url (r : Request) : string :=
  match r with
  | GET u _ => u
  | POST u _ => u
  end.

End Http.

Definition Observable : Type := Http.Request.

(** ** medical-record.service.ts *)

Module MedicalRecordService.

(** The two private fields of the service. *)
Record t := { baseUrl : string; mysqlUrl : string }.

(** Field initialisers; the constructor body is empty. *)
Definition constructor : t :=
  {| baseUrl := "http://127.0.0.1:5000";
     mysqlUrl := "mysql+pymysql://root@localhost:3306/healthcare_db" |}.

Definition setMySqlUrl (url : string) : M t unit :=
  modify (fun s => {| baseUrl := baseUrl s; mysqlUrl := url |}).

Definition getMySqlUrl : M t string := gets mysqlUrl.

Definition notSet : Js.Error := Js.MkError "MySQL URL is not set".

(** [if (!this.mysqlUrl) throw new Error('MySQL URL is not set')], written
    out in some methods and called as [validateMySqlUrl] in the others. *)
Definition validateMySqlUrl : M t unit :=
  let* u := gets mysqlUrl in
  if negb (Js.truthy u) then throw notSet else ret tt.

Definition endpoint (path : string) : M t string :=
  let* b := gets baseUrl in ret (b +:+ path).

(** The shape shared by the methods that take one id: the guard, then a GET
    with [mysql_url] and one more parameter. *)
Definition getWith (path key value : string) : M t Observable :=
  validateMySqlUrl ;;
  let* url := endpoint path in
  let* u := gets mysqlUrl in
  let params := Http.set key value (Http.set "mysql_url" u Http.newHttpParams) in
  ret (Http.GET url params).

Definition getUserEncounters (patientId : string) : M t Observable :=
  getWith "/get_user_encounters" "patient_id" patientId.

Definition getEncounterDetails (encounterId : string) : M t Observable :=
  getWith "/get_encounter_details" "encounter_id" encounterId.

Definition getPatientObservations (patientId : string) : M t Observable :=
  getWith "/observations/patient" "patient_id" patientId.

Definition getPatientImmunizations (patientId : string) : M t Observable :=
  getWith "/immunizations/patient" "patient_id" patientId.

Definition getPatientConditions (patientId : string) : M t Observable :=
  getWith "/conditions/patient" "patient_id" patientId.

Definition getPatientMedicationRequests (patientId : string) : M t Observable :=
  getWith "/medication-requests/patient" "patient_id" patientId.

Definition getPatientCareplans (patientId : string) : M t Observable :=
  getWith "/careplans/patient" "patient_id" patientId.

Definition getDashboardData : M t Observable :=
  validateMySqlUrl ;;
  let* url := endpoint "/dashboard" in
  let* u := gets mysqlUrl in
  ret (Http.GET url (Http.set "mysql_url" u Http.newHttpParams)).

(** [formData.append('mysql_url', ...)] writes to the caller's object; the
    callers never read it again, so the written form is only seen as the
    body of the request. *)
Definition uploadFiles (formData : Http.FormData) : M t Observable :=
  validateMySqlUrl ;;
  let* u := gets mysqlUrl in
  let formData' := Http.append "mysql_url" (Http.FText u) formData in
  let* url := endpoint "/upload" in
  ret (Http.POST url formData').

Definition getPatientEMR (patientId : string) : M t Observable :=
  getWith "/search_patient" "patient_id" patientId.

Definition getAllPatients : M t Observable :=
  validateMySqlUrl ;;
  let* url := endpoint "/patients" in
  let* u := gets mysqlUrl in
  ret (Http.GET url (Http.set "mysql_url" u Http.newHttpParams)).

Definition searchPatientsByName (name : string) : M t Observable :=
  getWith "/search_patient" "name" name.

Definition getPatientEncounters (patientId : string) : M t Observable :=
  getWith "/get_user_encounters" "patient_id" patientId.

(** The HTTP-issuing methods of the class, with their arguments. *)
Inductive Method :=
| GetUserEncounters (patientId : string)
| GetEncounterDetails (encounterId : string)
| GetPatientObservations (patientId : string)
| GetPatientImmunizations (patientId : string)
| GetPatientConditions (patientId : string)
| GetPatientMedicationRequests (patientId : string)
| GetPatientCareplans (patientId : string)
| GetDashboardData
| UploadFiles (formData : Http.FormData)
| GetPatientEMR (patientId : string)
| GetAllPatients
| SearchPatientsByName (name : string)
| GetPatientEncounters (patientId : string).

Definition call (m : Method) : M t Observable :=
  match m with
  | GetUserEncounters p => getUserEncounters p
  | GetEncounterDetails e => getEncounterDetails e
  | GetPatientObservations p => getPatientObservations p
  | GetPatientImmunizations p => getPatientImmunizations p
  | GetPatientConditions p => getPatientConditions p
  | GetPatientMedicationRequests p => getPatientMedicationRequests p
  | GetPatientCareplans p => getPatientCareplans p
  | GetDashboardData => getDashboardData
  | UploadFiles fd => uploadFiles fd
  | GetPatientEMR p => getPatientEMR p
  | GetAllPatients => getAllPatients
  | SearchPatientsByName n => searchPatientsByName n
  | GetPatientEncounters p => getPatientEncounters p
  end.

End MedicalRecordService.

(** ** The application around a component

    The injected service, and the subscriptions that are in flight: each
    request that was sent, with the callback [K] that waits for its
    response. *)

Record World (K : Type) := {
  service : MedicalRecordService.t;
  inflight : list (Http.Request * K)
}.
Arguments service {K} w.
Arguments inflight {K} w.

(** The requests sent so far, oldest first. *)
Definition sent {K} (w : World K) : list Http.Request := map fst (inflight w).

Definition onService {K A} (m : M MedicalRecordService.t A) : M (World K) A :=
  fun w =>
    let '(o, s') := m (service w) in
    (o, {| service := s'; inflight := inflight w |}).

(** [observable.subscribe(callback)] on an HTTP observable sends the
    request and registers the callback. *)
Definition subscribe {K} (o : Observable) (callback : K) : M (World K) unit :=
  modify (fun w => {| service := service w; inflight := inflight w ++ [(o, callback)] |}).

(** A caller that invokes a service method and subscribes to the result. *)
Definition request {K} (m : MedicalRecordService.Method) (callback : K) : M (World K) unit :=
  let* o := onService (MedicalRecordService.call m) in
  subscribe o callback.

(** Whether a request carries [u] under the name [mysql_url]: as its query
    parameter for a GET, as a form field for a POST. *)
Definition carriesMySqlUrl (r : Http.Request) (u : string) : Prop :=
  match r with
  | Http.GET _ params => Http.get "mysql_url" params = Some u
  | Http.POST _ body => In ("mysql_url", Http.FText u) body
  end.

(** What the rest of the application may do with the service, in order. *)
Inductive Op (K : Type) :=
| OpSetMySqlUrl (url : string)
| OpRequest (m : MedicalRecordService.Method) (callback : K).
Arguments OpSetMySqlUrl {K} url.
Arguments OpRequest {K} m callback.

(** An exception ends the event handler that raised it, not the
    application: the next operation runs on the state that was left. *)
Definition step {K} (w : World K) (op : Op K) : World K :=
  match op with
  | OpSetMySqlUrl u => snd (onService (MedicalRecordService.setMySqlUrl u) w)
  | OpRequest m k => snd (request m k w)
  end.

Definition run {K} (ops : list (Op K)) (w : World K) : World K :=
  fold_left step ops w.

Definition boot {K} : World K :=
  {| service := MedicalRecordService.constructor; inflight := [] |}.

Definition isSet {K} (op : Op K) : bool :=
  match op with
  | OpSetMySqlUrl _ => true
  | OpRequest _ _ => false
  end.

(** ** upload.component.ts *)

Module UploadComponent.

(** [selectedFiles] is [FileList | null]: [None] is [null], [Some []] is a
    [FileList] of length 0. *)
Record t := {
  selectedFiles : option (list Http.File);
  directoryFiles : list Http.File;
  isUploading : bool;
  uploadMessage : string
}.

Definition constructor : t :=
  {| selectedFiles := None; directoryFiles := []; isUploading := false;
     uploadMessage := "" |}.

Definition setIsUploading (b : bool) (c : t) : t :=
  {| selectedFiles := selectedFiles c; directoryFiles := directoryFiles c;
     isUploading := b; uploadMessage := uploadMessage c |}.

Definition setUploadMessage (m : string) (c : t) : t :=
  {| selectedFiles := selectedFiles c; directoryFiles := directoryFiles c;
     isUploading := isUploading c; uploadMessage := m |}.

(** [onFileSelected]: [this.selectedFiles = event.target.files]. *)
Definition onFileSelected (files : option (list Http.File)) : M t unit :=
  modify (fun c =>
    {| selectedFiles := files; directoryFiles := directoryFiles c;
       isUploading := isUploading c; uploadMessage := uploadMessage c |}).

Definition push (f : Http.File) : M t unit :=
  modify (fun c =>
    {| selectedFiles := selectedFiles c; directoryFiles := directoryFiles c ++ [f];
       isUploading := isUploading c; uploadMessage := uploadMessage c |}).

(** [onDirectorySelected]: empty the array, then push the files one by one. *)
Definition onDirectorySelected (files : list Http.File) : M t unit :=
  modify (fun c =>
    {| selectedFiles := selectedFiles c; directoryFiles := [];
       isUploading := isUploading c; uploadMessage := uploadMessage c |}) ;;
  forEach files push.

(** The observer [{ next, error }] passed to [subscribe]. *)
Inductive Callback := UploadObserver.

(** [formData.append('files', file, file.name)] for each file of an array. *)
Definition appendFiles (files : list Http.File) (formData : Http.FormData) : Http.FormData :=
  fold_left (fun fd file => Http.append "files" (Http.FFile file (Http.name file)) fd)
            files formData.

Definition uploadFiles : M (t * World Callback) unit :=
  let* sel := onFst (gets selectedFiles) in
  let* dir := onFst (gets directoryFiles) in
  if Js.truthy_obj sel || (0 <? length dir)%nat then
    onFst (modify (setIsUploading true)) ;;
    let formData : Http.FormData := [] in
    let formData :=
      match sel with
      | Some fileList => appendFiles fileList formData
      | None => formData
      end in
    let formData := appendFiles dir formData in
    let* o := onSnd (onService (MedicalRecordService.uploadFiles formData)) in
    onSnd (subscribe o UploadObserver)
  else
    onFst (modify (setUploadMessage "Please select files to upload.")).

(** The two branches of the observer, run when the response arrives. *)
Definition next : M t unit :=
  modify (setUploadMessage "Files uploaded successfully!") ;;
  modify (setIsUploading false).

Definition error : M t unit :=
  modify (setUploadMessage "Upload failed. Please try again.") ;;
  modify (setIsUploading false).

(** How many files the user has chosen, through either input. *)
Definition chosen (c : t) : list Http.File :=
  Js.nullish (selectedFiles c) [] ++ directoryFiles c.

(** The form entry of one file. *)
Definition fileEntry (f : Http.File) : string * Http.FormValue :=
  ("files", Http.FFile f (Http.name f)).

(** The request of an upload: the chosen files, then the connection URL. *)
Definition uploadRequest (c : t) (s : MedicalRecordService.t) : Http.Request :=
  Http.POST (MedicalRecordService.baseUrl s +:+ "/upload")
    (map fileEntry (chosen c)
     ++ [("mysql_url", Http.FText (MedicalRecordService.mysqlUrl s))]).

(** Sample inputs. *)
Definition file1 : Http.File := {| Http.name := "patient1.json"; Http.bytes := "{}" |}.
Definition file2 : Http.File := {| Http.name := "bundle.json"; Http.bytes := "[]" |}.

Definition oneSelected : t :=
  {| selectedFiles := Some [file1]; directoryFiles := [];
     isUploading := false; uploadMessage := "" |}.

Definition oneOfEach : t :=
  {| selectedFiles := Some [file1]; directoryFiles := [file2];
     isUploading := false; uploadMessage := "" |}.

(** The application after [setMySqlUrl('')]. *)
Definition urlCleared : World Callback := run [OpSetMySqlUrl ""] boot.

Definition emptyFileList : t :=
  {| selectedFiles := Some []; directoryFiles := [];
     isUploading := false; uploadMessage := "" |}.

End UploadComponent.

(** ** emr.component.ts *)

(** A response body, typed [any] in the components. *)
Inductive Json :=
| JNull
| JNum (z : Z)
| JStr (s : string)
| JArr (items : list Json)
| JObj (fields : list (string * Json)).

Module EmrComponent.

Record t := {
  patient : option Json;
  encounters : Json;
  encounterDetails : option Json;
  observations : Json;
  immunizations : Json;
  carePlans : Json;
  conditions : Json;
  medicationRequests : Json
}.

Definition constructor : t :=
  {| patient := None; encounters := JArr []; encounterDetails := None;
     observations := JArr []; immunizations := JArr []; carePlans := JArr [];
     conditions := JArr []; medicationRequests := JArr [] |}.

(** The arrow function each [subscribe] is given: the field it assigns. *)
Inductive Callback :=
| SetPatient
| SetEncounters
| SetObservations
| SetImmunizations
| SetCarePlans
| SetConditions
| SetMedicationRequests
| SetEncounterDetails.

(** [route.snapshot.paramMap]: the parameters of the matched route. *)
Definition ParamMap := list (string * string).

Definition paramGet (name : string) (pm : ParamMap) : option string :=
  Http.get name pm.

Definition fetch (o : M MedicalRecordService.t Observable) (k : Callback)
  : M (t * World Callback) unit :=
  let* obs := onSnd (onService o) in
  onSnd (subscribe obs k).

Definition fetchPatientDetails (patientId : string) :=
  fetch (MedicalRecordService.getPatientEMR patientId) SetPatient.

Definition fetchPatientEncounters (patientId : string) :=
  fetch (MedicalRecordService.getPatientEncounters patientId) SetEncounters.

Definition fetchObservations (patientId : string) :=
  fetch (MedicalRecordService.getPatientObservations patientId) SetObservations.

Definition fetchImmunizations (patientId : string) :=
  fetch (MedicalRecordService.getPatientImmunizations patientId) SetImmunizations.

Definition fetchCarePlans (patientId : string) :=
  fetch (MedicalRecordService.getPatientCareplans patientId) SetCarePlans.

Definition fetchConditions (patientId : string) :=
  fetch (MedicalRecordService.getPatientConditions patientId) SetConditions.

Definition fetchMedicationRequests (patientId : string) :=
  fetch (MedicalRecordService.getPatientMedicationRequests patientId) SetMedicationRequests.

Definition viewEncounterDetails (encounterId : string) :=
  fetch (MedicalRecordService.getEncounterDetails encounterId) SetEncounterDetails.

(** [if (patientId)]: a missing parameter is [null], and the empty string
    is falsy too. *)
Definition ngOnInit (paramMap : ParamMap) : M (t * World Callback) unit :=
  match paramGet "id" paramMap with
  | Some patientId =>
      if Js.truthy patientId then
        fetchPatientDetails patientId ;;
        fetchPatientEncounters patientId ;;
        fetchObservations patientId ;;
        fetchImmunizations patientId ;;
        fetchCarePlans patientId ;;
        fetchConditions patientId ;;
        fetchMedicationRequests patientId
      else ret tt
  | None => ret tt
  end.

(** The callback run on the response [data]. *)
Definition respond (k : Callback) (data : Json) (c : t) : t :=
  match k with
  | SetPatient =>
      {| patient := Some data; encounters := encounters c;
         encounterDetails := encounterDetails c; observations := observations c;
         immunizations := immunizations c; carePlans := carePlans c;
         conditions := conditions c; medicationRequests := medicationRequests c |}
  | SetEncounters =>
      {| patient := patient c; encounters := data;
         encounterDetails := encounterDetails c; observations := observations c;
         immunizations := immunizations c; carePlans := carePlans c;
         conditions := conditions c; medicationRequests := medicationRequests c |}
  | SetObservations =>
      {| patient := patient c; encounters := encounters c;
         encounterDetails := encounterDetails c; observations := data;
         immunizations := immunizations c; carePlans := carePlans c;
         conditions := conditions c; medicationRequests := medicationRequests c |}
  | SetImmunizations =>
      {| patient := patient c; encounters := encounters c;
         encounterDetails := encounterDetails c; observations := observations c;
         immunizations := data; carePlans := carePlans c;
         conditions := conditions c; medicationRequests := medicationRequests c |}
  | SetCarePlans =>
      {| patient := patient c; encounters := encounters c;
         encounterDetails := encounterDetails c; observations := observations c;
         immunizations := immunizations c; carePlans := data;
         conditions := conditions c; medicationRequests := medicationRequests c |}
  | SetConditions =>
      {| patient := patient c; encounters := encounters c;
         encounterDetails := encounterDetails c; observations := observations c;
         immunizations := immunizations c; carePlans := carePlans c;
         conditions := data; medicationRequests := medicationRequests c |}
  | SetMedicationRequests =>
      {| patient := patient c; encounters := encounters c;
         encounterDetails := encounterDetails c; observations := observations c;
         immunizations := immunizations c; carePlans := carePlans c;
         conditions := conditions c; medicationRequests := data |}
  | SetEncounterDetails =>
      {| patient := patient c; encounters := encounters c;
         encounterDetails := Some data; observations := observations c;
         immunizations := immunizations c; carePlans := carePlans c;
         conditions := conditions c; medicationRequests := medicationRequests c |}
  end.

(** The requests the EMR view is to make for a patient, by endpoint. *)
Definition patientFetches (base mysqlUrl patientId : string) : list Http.Request :=
  map (fun path => Http.GET (base +:+ path)
                     [("mysql_url", mysqlUrl); ("patient_id", patientId)])
      ["/search_patient"; "/get_user_encounters"; "/observations/patient";
       "/immunizations/patient"; "/careplans/patient"; "/conditions/patient";
       "/medication-requests/patient"].

(** The responses of the subscriptions, handed to their callbacks in the
    order they arrive. *)
Definition deliver (responses : list (Callback * Json)) (c : t) : t :=
  fold_left (fun c r => respond (fst r) (snd r) c) responses c.

#[global] Instance Callback_eq_dec : EqDecision Callback.
Proof. solve_decision. Defined.

(** The data of the last response that a callback was given, if any. *)
Fixpoint lastFor (k : Callback) (responses : list (Callback * Json)) : option Json :=
  match responses with
  | [] => None
  | (k', data) :: responses' =>
      match lastFor k responses' with
      | Some later => Some later
      | None => if bool_decide (k' = k) then Some data else None
      end
  end.

(** The field a callback assigns, as the component holds it ([None] is
    [undefined]). *)
Definition assigned (k : Callback) (c : t) : option Json :=
  match k with
  | SetPatient => patient c
  | SetEncounters => Some (encounters c)
  | SetObservations => Some (observations c)
  | SetImmunizations => Some (immunizations c)
  | SetCarePlans => Some (carePlans c)
  | SetConditions => Some (conditions c)
  | SetMedicationRequests => Some (medicationRequests c)
  | SetEncounterDetails => encounterDetails c
  end.

End EmrComponent.

(** ** The resource types of the data model *)

(** The eight resource types of the data model: the root type and the
    seven child entity types, which the front end names in its count
    columns and in its per-patient fetches. *)
Inductive ResourceType :=
| Patient
| Encounter
| Condition
| Observation
| Immunization
| CarePlan
| MedicationRequest
| Procedure.

Definition allResourceTypes : list ResourceType :=
  [Patient; Encounter; Condition; Observation; Immunization; CarePlan;
   MedicationRequest; Procedure].

(** The child entity types: every type but the root. *)
Definition isChild (ty : ResourceType) : bool :=
  match ty with
  | Patient => false
  | _ => true
  end.

(** ** patients.component.ts *)

Module PatientsComponent.

(** One element of the response of [/patients]. *)
Record PatientRow := {
  patient_id : string;
  full_name : string;
  birth_date : option string;
  gender : option string;
  deceased_datetime : option string;
  encounter_count : Z;
  condition_count : Z;
  observation_count : Z;
  request_count : Z;
  procedure_count : Z;
  immunization_count : Z;
  careplan_count : Z
}.

(** [filteredPatients$] is unassigned until the patients have arrived. *)
Record t := {
  searchControl : option string;
  patients : list PatientRow;
  filteredPatientsReady : bool
}.

Definition constructor : t :=
  {| searchControl := Some ""; patients := []; filteredPatientsReady := false |}.

Definition displayedColumns : list string :=
  ["patient_id"; "full_name"; "birth_date"; "gender"; "deceased_datetime";
   "encounter_count"; "condition_count"; "observation_count"; "request_count";
   "procedure_count"; "immunization_count"; "careplan_count"].

Inductive Callback := PatientsLoaded.

Definition ngOnInit : M (t * World Callback) unit :=
  let* o := onSnd (onService MedicalRecordService.getAllPatients) in
  onSnd (subscribe o PatientsLoaded).

(** The callback of [getAllPatients().subscribe]. *)
Definition loaded (res : list PatientRow) (c : t) : t :=
  {| searchControl := searchControl c; patients := res;
     filteredPatientsReady := true |}.

(** [startWith('')] *)
Definition startWith {A} (a : A) (l : list A) : list A := a :: l.

(** [distinctUntilChanged()] with its default comparison: a value equal to
    the one emitted just before it is dropped. *)
Fixpoint distinctUntilChangedFrom (prev : option string) (l : list (option string))
  : list (option string) :=
  match l with
  | [] => []
  | x :: l' =>
      if bool_decide (x = prev) then distinctUntilChangedFrom prev l'
      else x :: distinctUntilChangedFrom x l'
  end.

Definition distinctUntilChanged (l : list (option string)) : list (option string) :=
  match l with
  | [] => []
  | x :: l' => x :: distinctUntilChangedFrom x l'
  end.

(** [map((query) => query ?? '')] *)
Definition defaulted (query : option string) : string := Js.nullish query "".

(** [map((query) => this.patients.filter(...))], reading [this.patients]
    when the value comes through. *)
Definition filterStage {L : Js.Lowering} (c : t) (query : string) : list PatientRow :=
  List.filter
    (fun patient =>
       Js.includes (Js.toLowerCase (full_name patient)) (Js.toLowerCase query))
    (patients c).

(** What the view shows for one value of the search control. *)
Definition filteredPatients {L : Js.Lowering} (c : t) (query : option string)
  : list PatientRow :=
  filterStage c (defaulted query).

(** The whole [pipe]: [debounce] is what [debounceTime(300)] lets through
    of the values it is given, which depends on when they arrive. *)
Definition filteredPatientsStream {L : Js.Lowering}
    (debounce : list (option string) -> list (option string))
    (c : t) (valueChanges : list (option string)) : list (list PatientRow) :=
  map (filterStage c)
      (map defaulted
           (distinctUntilChanged (debounce (startWith (Some "") valueChanges)))).

(** The columns by what they show: a field of the patient, or the number
    of rows of a child entity type. *)
Inductive PatientField := PatientId | FullName | BirthDate | Gender | DeceasedDatetime.

Inductive Column :=
| Field (f : PatientField)
| Count (ty : ResourceType).

Definition columnOf (name : string) : option Column :=
  if String.eqb name "patient_id" then Some (Field PatientId)
  else if String.eqb name "full_name" then Some (Field FullName)
  else if String.eqb name "birth_date" then Some (Field BirthDate)
  else if String.eqb name "gender" then Some (Field Gender)
  else if String.eqb name "deceased_datetime" then Some (Field DeceasedDatetime)
  else if String.eqb name "encounter_count" then Some (Count Encounter)
  else if String.eqb name "condition_count" then Some (Count Condition)
  else if String.eqb name "observation_count" then Some (Count Observation)
  else if String.eqb name "request_count" then Some (Count MedicationRequest)
  else if String.eqb name "procedure_count" then Some (Count Procedure)
  else if String.eqb name "immunization_count" then Some (Count Immunization)
  else if String.eqb name "careplan_count" then Some (Count CarePlan)
  else None.

Definition fieldOf (name : string) : option PatientField :=
  match columnOf name with
  | Some (Field f) => Some f
  | _ => None
  end.

Definition countOf (name : string) : option ResourceType :=
  match columnOf name with
  | Some (Count ty) => Some ty
  | _ => None
  end.

(** ** Containment, as the search is described *)

(** [s] contains [q] as a substring. *)
Definition contains (s q : string) : Prop :=
  exists before after, s = before +:+ q +:+ after.

(** The letters of Basic Latin, each capital with its small letter: the
    two alphabets side by side. *)
Definition capitals : string := "ABCDEFGHIJKLMNOPQRSTUVWXYZ".

Definition smalls : string := "abcdefghijklmnopqrstuvwxyz".

Definition letterPairs : list (ascii * ascii) :=
  combine (list_ascii_of_string capitals) (list_ascii_of_string smalls).

(** Two characters are the same letter up to case. *)
Definition sameLetter (a b : ascii) : Prop :=
  a = b \/ In (a, b) letterPairs \/ In (b, a) letterPairs.

Inductive equalIgnoringCase : string -> string -> Prop :=
| eic_nil : equalIgnoringCase "" ""
| eic_cons a b s t :
    sameLetter a b -> equalIgnoringCase s t ->
    equalIgnoringCase (String a s) (String b t).

(** [s] contains [q] as a substring, compared case-insensitively. *)
Definition containsIgnoringCase (s q : string) : Prop :=
  exists before middle after,
    s = before +:+ middle +:+ after /\ equalIgnoringCase middle q.

(** [l] is exactly the sublist of [all] of the elements that satisfy [P],
    in their order. *)
Inductive SublistWhere {A} (P : A -> Prop) : list A -> list A -> Prop :=
| sw_nil : SublistWhere P [] []
| sw_keep x all l : P x -> SublistWhere P all l -> SublistWhere P (x :: all) (x :: l)
| sw_drop x all l : ~ P x -> SublistWhere P all l -> SublistWhere P (x :: all) l.

(** Sample rows. *)
Definition row (id name : string) : PatientRow :=
  {| patient_id := id; full_name := name; birth_date := None; gender := None;
     deceased_datetime := None; encounter_count := 0; condition_count := 0;
     observation_count := 0; request_count := 0; procedure_count := 0;
     immunization_count := 0; careplan_count := 0 |}.

Definition three : t :=
  {| searchControl := Some "";
     patients := [row "1" "Alice Smith"; row "2" "BOB STONE"; row "3" "Carl Malice"];
     filteredPatientsReady := true |}.

(** One patient with a Greek name, in capitals. *)
Definition greek : t :=
  {| searchControl := Some "";
     patients := [row "7" "ΑΣΑ"];
     filteredPatientsReady := true |}.

(** No value of the list equals the one just before it. *)
Fixpoint noRepeat (l : list (option string)) : Prop :=
  match l with
  | x :: l' =>
      match l' with
      | y :: _ => x <> y /\ noRepeat l'
      | [] => True
      end
  | [] => True
  end.

End PatientsComponent.

(** ** population-dashboard.component.ts (the version that draws charts) *)

Module PopulationDashboardComponent.

Record GenderRow := { gender : string; patient_count : Z }.
Record ConditionRow := { code_text : string; condition_count : Z }.
Record ImmunizationBucket := { i_year : Z; i_month : Z; immunization_count : Z }.
Record EncounterBucket := { e_year : Z; e_month : Z; encounter_count : Z }.
Record MedicationRow := { status : string; medication_count : Z }.

(** The body of the [/dashboard] response. It is typed [any]: a field that
    the body lacks reads as [undefined], here [None]. *)
Record DashboardData := {
  patients_by_gender : option (list GenderRow);
  conditions_by_category : option (list ConditionRow);
  immunization_over_time : option (list ImmunizationBucket);
  encounters_over_time : option (list EncounterBucket);
  medication_status_distribution : option (list MedicationRow);
  top_conditions : option (list ConditionRow)
}.

Inductive ChartType := pie | bar | line.

(** The one dataset of a chart: its points and how they are drawn. *)
Record Dataset := {
  label : option string;
  data : list Z;
  backgroundColor : list string;
  borderColor : option string;
  fill : option bool
}.

(** [new Chart(canvas, { type, data: { labels, datasets: [dataset] } })] *)
Record Chart := {
  canvas : string;
  type : ChartType;
  labels : list string;
  dataset : Dataset
}.

Record t := {
  dashboardData : option DashboardData;
  charts : list Chart;
  console : list string
}.

Definition constructor : t :=
  {| dashboardData := None; charts := []; console := [] |}.

Definition typeError : Js.Error :=
  Js.MkError "Cannot read properties of undefined".

(** Reading a property that must be there: [undefined.map] throws. *)
Definition defined {A} (o : option A) : M t A :=
  match o with
  | Some a => ret a
  | None => throw typeError
  end.

(** [this.dashboardData.f] *)
Definition read {A} (f : DashboardData -> option A) : M t A :=
  let* d := gets dashboardData in
  let* d := defined d in
  defined (f d).

Definition newChart (c : Chart) : M t unit :=
  modify (fun s =>
    {| dashboardData := dashboardData s; charts := charts s ++ [c];
       console := console s |}).

Definition consoleError (msg : string) : M t unit :=
  modify (fun s =>
    {| dashboardData := dashboardData s; charts := charts s;
       console := console s ++ [msg] |}).

(** [try { body } catch (error) { handler }] *)
Definition tryCatch {S} (body : M S unit) (handler : Js.Error -> M S unit) : M S unit :=
  fun s =>
    match body s with
    | (Ret tt, s') => (Ret tt, s')
    | (Threw e, s') => handler e s'
    end.

(** [`${item.year}-${item.month}`] *)
Definition yearMonth (year month : Z) : string :=
  Js.toStringZ year +:+ "-" +:+ Js.toStringZ month.

Definition palette : list string := ["#FF6384"; "#36A2EB"; "#FFCE56"].

Definition genderChart (rows : list GenderRow) (rows' : list GenderRow) : Chart :=
  {| canvas := "genderChart"; type := pie;
     labels := map gender rows;
     dataset := {| label := None; data := map patient_count rows';
                   backgroundColor := palette; borderColor := None; fill := None |} |}.

Definition conditionsCategoryChart (rows rows' : list ConditionRow) : Chart :=
  {| canvas := "conditionsCategoryChart"; type := bar;
     labels := map code_text rows;
     dataset := {| label := Some "Conditions Count"; data := map condition_count rows';
                   backgroundColor := ["#FF6384"]; borderColor := None; fill := None |} |}.

Definition immunizationChart (rows rows' : list ImmunizationBucket) : Chart :=
  {| canvas := "immunizationChart"; type := line;
     labels := map (fun item => yearMonth (i_year item) (i_month item)) rows;
     dataset := {| label := Some "Immunization Count";
                   data := map immunization_count rows';
                   backgroundColor := []; borderColor := Some "#36A2EB";
                   fill := Some false |} |}.

Definition encounterChart (rows rows' : list EncounterBucket) : Chart :=
  {| canvas := "encounterChart"; type := line;
     labels := map (fun item => yearMonth (e_year item) (e_month item)) rows;
     dataset := {| label := Some "Encounter Count";
                   data := map encounter_count rows';
                   backgroundColor := []; borderColor := Some "#FFCE56";
                   fill := Some false |} |}.

Definition medicationStatusChart (rows rows' : list MedicationRow) : Chart :=
  {| canvas := "medicationStatusChart"; type := pie;
     labels := map status rows;
     dataset := {| label := None; data := map medication_count rows';
                   backgroundColor := palette; borderColor := None; fill := None |} |}.

Definition topConditionsChart (rows rows' : list ConditionRow) : Chart :=
  {| canvas := "topConditionsChart"; type := bar;
     labels := map code_text rows;
     dataset := {| label := Some "Condition Count"; data := map condition_count rows';
                   backgroundColor := ["#FF6384"]; borderColor := None; fill := None |} |}.

(** Each chart reads its field twice, once for the labels and once for the
    data, before it is constructed. *)
Definition createCharts : M t unit :=
  tryCatch
    (let* l := read patients_by_gender in
     let* d := read patients_by_gender in
     newChart (genderChart l d) ;;
     let* l := read conditions_by_category in
     let* d := read conditions_by_category in
     newChart (conditionsCategoryChart l d) ;;
     let* l := read immunization_over_time in
     let* d := read immunization_over_time in
     newChart (immunizationChart l d) ;;
     let* l := read encounters_over_time in
     let* d := read encounters_over_time in
     newChart (encounterChart l d) ;;
     let* l := read medication_status_distribution in
     let* d := read medication_status_distribution in
     newChart (medicationStatusChart l d) ;;
     let* l := read top_conditions in
     let* d := read top_conditions in
     newChart (topConditionsChart l d))
    (fun _ => consoleError "Failed to create chart:").

Inductive Callback := DashboardObserver.

Definition loadDashboardData : M (t * World Callback) unit :=
  let* o := onSnd (onService MedicalRecordService.getDashboardData) in
  onSnd (subscribe o DashboardObserver).

Definition ngOnInit : M (t * World Callback) unit := loadDashboardData.

(** [console.log(data)]: the line is the text the console prints for the
    value. *)
Definition consoleLog (line : string) : M t unit :=
  modify (fun s =>
    {| dashboardData := dashboardData s; charts := charts s;
       console := console s ++ [line] |}).

(** The [next] callback: store the body, log it and, if it is truthy,
    draw. [inspect] is how the console prints a value, which is the
    console's own. The zero-delay timer is run at once. *)
Definition next (inspect : option DashboardData -> string)
    (body : option DashboardData) : M t unit :=
  modify (fun s =>
    {| dashboardData := body; charts := charts s; console := console s |}) ;;
  consoleLog (inspect body) ;;
  let* d := gets dashboardData in
  if Js.truthy_obj d then createCharts else ret tt.

(** The [error] callback of [loadDashboardData]. *)
Definition error : M t unit :=
  consoleError "Error fetching dashboard data:".

(** A sample response, with two rows under each field. *)
Definition sample : DashboardData :=
  {| patients_by_gender :=
       Some [ {| gender := "female"; patient_count := 7 |};
              {| gender := "male"; patient_count := 5 |} ];
     conditions_by_category :=
       Some [ {| code_text := "Hypertension"; condition_count := 4 |};
              {| code_text := "Asthma"; condition_count := 2 |} ];
     immunization_over_time :=
       Some [ {| i_year := 2020; i_month := 11; immunization_count := 3 |};
              {| i_year := 2021; i_month := 2; immunization_count := 9 |} ];
     encounters_over_time :=
       Some [ {| e_year := 2019; e_month := 12; encounter_count := 14 |};
              {| e_year := 2020; e_month := 1; encounter_count := 6 |} ];
     medication_status_distribution :=
       Some [ {| status := "active"; medication_count := 8 |};
              {| status := "stopped"; medication_count := 1 |} ];
     top_conditions :=
       Some [ {| code_text := "Hypertension"; condition_count := 4 |};
              {| code_text := "Asthma"; condition_count := 2 |} ] |}.

Definition loaded : t :=
  {| dashboardData := Some sample; charts := []; console := [] |}.

(** A response that lacks [immunization_over_time]. *)
Definition partial : DashboardData :=
  {| patients_by_gender := patients_by_gender sample;
     conditions_by_category := conditions_by_category sample;
     immunization_over_time := None;
     encounters_over_time := encounters_over_time sample;
     medication_status_distribution := medication_status_distribution sample;
     top_conditions := top_conditions sample |}.

(** [ngAfterViewInit]: draw if the data is already there. The zero-delay
    timer is run at once, as in [next]. *)
Definition ngAfterViewInit : M t unit :=
  let* d := gets dashboardData in
  if Js.truthy_obj d then createCharts else ret tt.

(** The six charts in the order [createCharts] constructs them, each from
    its field of the response if the response has it. *)
Definition chartPlan (d : DashboardData) : list (option Chart) :=
  [ (fun rows => genderChart rows rows) <$> patients_by_gender d;
    (fun rows => conditionsCategoryChart rows rows) <$> conditions_by_category d;
    (fun rows => immunizationChart rows rows) <$> immunization_over_time d;
    (fun rows => encounterChart rows rows) <$> encounters_over_time d;
    (fun rows => medicationStatusChart rows rows) <$> medication_status_distribution d;
    (fun rows => topConditionsChart rows rows) <$> top_conditions d ].

(** The elements of a list up to the first one that is missing. *)
Fixpoint untilMissing {A} (l : list (option A)) : list A :=
  match l with
  | Some a :: l' => a :: untilMissing l'
  | _ => []
  end.

Definition noneMissing {A} (l : list (option A)) : bool :=
  forallb (fun o => match o with Some _ => true | None => false end) l.

End PopulationDashboardComponent.

(** ** Sample routes for the EMR view *)

Module EmrSamples.

Definition routeP1 : EmrComponent.ParamMap := [("id", "p1")].

Definition noId : EmrComponent.ParamMap := [].

Definition urlCleared : World EmrComponent.Callback := run [OpSetMySqlUrl ""] boot.

Definition fresh : World EmrComponent.Callback := boot.

End EmrSamples.

(** ** The ingestion engine *)

(** Modelled from the spec: the persistent tables of the loader (section
    4.5), which is not among the sources. A table is keyed by [K]; each
    stored row has the value the loader writes, [V], and the unmapped or
    derived part [D] that the loader never writes. Rows are kept in
    insertion order, so that a second row under a key would show. *)
Section Table.

Context {K V D : Type} `{EqDecision K}.

Definition Table : Type := list (K * (V * D)).

(** Modelled from the spec: the keys that have a row, one entry per row. *)
Definition keys (t : Table) : list K := map fst t.

(** Modelled from the spec: the row under a key, the first if there were
    several. *)
Definition lookupRow (k : K) (t : Table) : option (V * D) :=
  snd <$> List.find (fun r => bool_decide (fst r = k)) t.

(** Modelled from the spec: the upsert of section 4.5, keyed by [k]: an
    existing row gets the new value and keeps its derived part; otherwise
    one row is added, with the derived part [d0]. *)
Fixpoint upsert (d0 : D) (k : K) (v : V) (t : Table) : Table :=
  match t with
  | [] => [(k, (v, d0))]
  | (k', (v', d)) :: t' =>
      if decide (k' = k) then (k', (v, d)) :: t'
      else (k', (v', d)) :: upsert d0 k v t'
  end.

(** Modelled from the spec: the writes of a batch, applied one after the
    other inside the transaction of the batch (section 5). *)
Definition load (d0 : D) (writes : list (K * V)) (t : Table) : Table :=
  fold_left (fun t w => upsert d0 (fst w) (snd w) t) writes t.

End Table.

Arguments Table : clear implicits.

Module Ingestion.

(** Modelled from the spec: the ingestion, transform and load engine (the
    ETL script and the [/upload] endpoint behind it) is not among the
    sources; what follows is the engine of sections 3, 4, 5 and 7 of the
    specification. The reader is modelled by what it decodes: a byte source
    either fails to decode or holds one resource or a bundle of resources.
    A resource is the generic structured value the transformer reads. *)
Record Resource := {
  resourceType : option string;
  id : option string;
  patientRef : option string;
  encounterRef : option string;
  content : list (string * string)
}.

(** Modelled from the spec: the byte sources of section 4.1, each with the
    name of the file or blob it came from. *)
Inductive Source :=
| Malformed (name : string)
| Single (name : string) (r : Resource)
| Bundle (name : string) (rs : list Resource).

(** Modelled from the spec: the error taxonomy of section 7, with the
    source or the row each error is about. *)
Inductive IngestError :=
| DecodeError (source : string)
| UnsupportedResourceType (source discriminator : string)
| MissingRequiredField (source field : string)
| UnresolvedReference (from to : ResourceType * string)
| PersistenceFailure.

(** Modelled from the spec: the errors of the class [DecodeError]. *)
Definition isDecodeError (e : IngestError) : bool :=
  match e with
  | DecodeError _ => true
  | _ => false
  end.

(** Modelled from the spec: section 4.1, one decoded document per resource
    found, tagged with its source; a malformed source gives a
    [DecodeError] of its own and the reader goes on. *)
Definition decode (src : Source) : list (string * Resource) + IngestError :=
  match src with
  | Malformed name => inr (DecodeError name)
  | Single name r => inl [(name, r)]
  | Bundle name rs => inl (map (fun r => (name, r)) rs)
  end.

(** Modelled from the spec: the reader over a whole batch: the decoded
    documents in order, and the decode errors collected on the way. *)
Fixpoint readAll (batch : list Source) : list (string * Resource) * list IngestError :=
  match batch with
  | [] => ([], [])
  | src :: batch' =>
      let '(docs, errs) := readAll batch' in
      match decode src with
      | inl ds => (ds ++ docs, errs)
      | inr e => (docs, e :: errs)
      end
  end.

(** Modelled from the spec: section 4.2, the dispatch on the discriminator
    over the eight known types. *)
Definition classify (discriminator : string) : option ResourceType :=
  if String.eqb discriminator "Patient" then Some Patient
  else if String.eqb discriminator "Encounter" then Some Encounter
  else if String.eqb discriminator "Condition" then Some Condition
  else if String.eqb discriminator "Observation" then Some Observation
  else if String.eqb discriminator "Immunization" then Some Immunization
  else if String.eqb discriminator "CarePlan" then Some CarePlan
  else if String.eqb discriminator "MedicationRequest" then Some MedicationRequest
  else if String.eqb discriminator "Procedure" then Some Procedure
  else None.

(** Modelled from the spec: rows are keyed by (type, id). *)
Definition Key : Type := ResourceType * string.

(** Modelled from the spec: the mapped scalar columns of a row, each a
    value or null. *)
Definition Fields : Type := list (string * option string).

(** Modelled from the spec: the types of section 3 that carry an optional
    encounter reference. *)
Definition hasEncounterRef (ty : ResourceType) : bool :=
  match ty with
  | Condition | Observation | MedicationRequest | Procedure => true
  | _ => false
  end.

(** Modelled from the spec: what the transformer gives for one document
    (section 4.3): the row value, with its outgoing references still to be
    resolved. *)
Record Pending := {
  key : Key;
  mapped : Fields;
  toPatient : option string;
  toEncounter : option string
}.

(** Modelled from the spec: what the loader writes under a key: the mapped
    columns, the two reference columns (null when absent or unresolved)
    and the flag of a row persisted with an unresolved reference. *)
Record RowValue := {
  fields : Fields;
  patient : option string;
  encounter : option string;
  flagged : bool
}.

(** Modelled from the spec: the columns the engine does not map; an
    update leaves them as they are. *)
Definition Derived : Type := list (string * string).

(** Modelled from the spec: the derived [PatientSummary] of section 3, one
    count per child entity type. *)
Definition Summary : Type := list (ResourceType * nat).

(** Modelled from the spec: the persistent store: the base rows of every
    type and the summary cache. *)
Record Store := {
  rows : Table Key RowValue Derived;
  summaries : Table string Summary unit
}.

(** Modelled from the spec: the per-batch result of section 6: the counts
    of resources created, updated and skipped, and the errors and
    warnings. *)
Record BatchResult := {
  created : nat;
  updated : nat;
  skipped : nat;
  errors : list IngestError
}.

#[global] Instance ResourceType_eq_dec : EqDecision ResourceType.
Proof. solve_decision. Defined.

Section Engine.

(** Modelled from the spec: the per-type mapping routines of section 4.3
    (coded concepts flattened to the first coding, dates normalised with
    their precision) are taken as any function of the type and the
    document. *)
Variable mapFields : ResourceType -> Resource -> Fields.

(** Modelled from the spec: section 4.3, the required fields: the
    discriminator, the id and, for every type but Patient, the patient
    reference. A document that lacks one fails alone. *)
Definition transform (doc : string * Resource) : Pending + IngestError :=
  let '(source, r) := doc in
  match resourceType r with
  | None => inr (MissingRequiredField source "resourceType")
  | Some discriminator =>
      match classify discriminator with
      | None => inr (UnsupportedResourceType source discriminator)
      | Some ty =>
          match id r with
          | None => inr (MissingRequiredField source "id")
          | Some i =>
              match ty, patientRef r with
              | Patient, _ =>
                  inl {| key := (Patient, i); mapped := mapFields Patient r;
                         toPatient := None; toEncounter := None |}
              | _, None => inr (MissingRequiredField source "patient")
              | _, Some p =>
                  inl {| key := (ty, i); mapped := mapFields ty r;
                         toPatient := Some p;
                         toEncounter :=
                           if hasEncounterRef ty then encounterRef r else None |}
              end
          end
      end
  end.

(** Modelled from the spec: the transformer over the documents of a
    batch: a document that fails is skipped with its error, the others go
    on. *)
Fixpoint transformAll (docs : list (string * Resource))
  : list Pending * list IngestError :=
  match docs with
  | [] => ([], [])
  | doc :: docs' =>
      let '(ps, errs) := transformAll docs' in
      match transform doc with
      | inl p => (p :: ps, errs)
      | inr e => (ps, e :: errs)
      end
  end.

(** Modelled from the spec: the rows of the root type. *)
Definition isPatient (p : Pending) : bool :=
  match fst (key p) with
  | Patient => true
  | _ => false
  end.

(** Modelled from the spec: section 4.4, pass 1. The Patient rows come
    first; every other row is recorded after them with its references
    unresolved. *)
Definition pass1 (ps : list Pending) : list Pending :=
  List.filter isPatient ps ++ List.filter (fun p => negb (isPatient p)) ps.

(** Modelled from the spec: the mapping from (type, id) to a handle, built
    as the rows of pass 1 are recorded; a key keeps the first handle it
    was given. *)
Fixpoint record (ps : list Pending) (handles : list (Key * nat)) : list (Key * nat) :=
  match ps with
  | [] => handles
  | p :: ps' =>
      record ps'
        (if bool_decide (key p ∈ map fst handles) then handles
         else handles ++ [(key p, length handles)])
  end.

(** Modelled from the spec: section 4.4, pass 2. A reference resolves
    against the rows of the batch, all of which pass 1 has recorded (what
    stays unresolved after pass 2 is a target never present in the batch),
    and, failing that, against the persistent store. *)
Definition resolves (handles : list (Key * nat)) (stored : list Key) (target : Key) : bool :=
  bool_decide (target ∈ map fst handles) || bool_decide (target ∈ stored).

(** Modelled from the spec: one reference column: the target when it
    resolves, null and a mark otherwise. *)
Definition resolveRef (handles : list (Key * nat)) (stored : list Key)
    (ty : ResourceType) (ref : option string) : option string * bool :=
  match ref with
  | None => (None, false)
  | Some target =>
      if resolves handles stored (ty, target) then (Some target, false)
      else (None, true)
  end.

(** Modelled from the spec: the row to write for a pending row, and the
    [UnresolvedReference] warnings for the references that stay
    unresolved: the row is written all the same, with a null reference and
    the flag (section 4.5). *)
Definition resolve (handles : list (Key * nat)) (stored : list Key) (p : Pending)
  : (Key * RowValue) * list IngestError :=
  let '(pat, patMissing) := resolveRef handles stored Patient (toPatient p) in
  let '(enc, encMissing) := resolveRef handles stored Encounter (toEncounter p) in
  ((key p,
    {| fields := mapped p; patient := pat; encounter := enc;
       flagged := patMissing || encMissing |}),
   (if patMissing
    then [UnresolvedReference (key p) (Patient, Js.nullish (toPatient p) "")]
    else [])
   ++ (if encMissing
       then [UnresolvedReference (key p) (Encounter, Js.nullish (toEncounter p) "")]
       else [])).

(** Modelled from the spec: pass 2 over the pending rows, in order. *)
Definition pass2 (handles : list (Key * nat)) (stored : list Key) (ps : list Pending)
  : list (Key * RowValue) * list IngestError :=
  (map (fun p => fst (resolve handles stored p)) ps,
   concat (map (fun p => snd (resolve handles stored p)) ps)).

(** Modelled from the spec: section 4.6. The patients touched by a batch
    are those whose own row or whose child row it wrote; the summary of a
    patient counts the child rows of each type that refer to it. *)
Definition touched (writes : list (Key * RowValue)) : list string :=
  omap (fun w =>
          match fst (fst w) with
          | Patient => Some (snd (fst w))
          | _ => patient (snd w)
          end) writes.

(** Modelled from the spec: the seven child entity types. *)
Definition childTypes : list ResourceType := List.filter isChild allResourceTypes.

(** Modelled from the spec: the child rows of a patient, counted per
    type. *)
Definition countFor (t : Table Key RowValue Derived) (p : string) : Summary :=
  map (fun ty =>
         (ty,
          length (List.filter
                    (fun r => bool_decide (fst (fst r) = ty)
                              && bool_decide (patient (fst (snd r)) = Some p))
                    t)))
      childTypes.

(** Modelled from the spec: the summaries of the touched patients,
    recomputed from the rows and upserted into the cache. *)
Definition refresh (t : Table Key RowValue Derived) (ps : list string)
    (s : Table string Summary unit) : Table string Summary unit :=
  load tt (map (fun p => (p, countFor t p)) ps) s.

(** Modelled from the spec: how many of the writes insert a row, given
    the keys already there; the other writes update one. *)
Fixpoint countCreated (writes : list Key) (present : list Key) : nat :=
  match writes with
  | [] => 0
  | k :: writes' =>
      if bool_decide (k ∈ present) then countCreated writes' present
      else S (countCreated writes' (present ++ [k]))
  end.

(** Modelled from the spec: one batch, sections 4.1 to 4.6 in order.
    [persists] tells whether the storage layer accepts the transaction: if
    it does not, the batch rolls back whole and is reported as failed. *)
Definition ingest (persists : bool) (batch : list Source) (s : Store)
  : Store * BatchResult :=
  let '(docs, decodeErrors) := readAll batch in
  let '(pending, skipErrors) := transformAll docs in
  let ordered := pass1 pending in
  let handles := record ordered [] in
  let '(writes, warnings) := pass2 handles (keys (rows s)) ordered in
  let nCreated := countCreated (map fst writes) (keys (rows s)) in
  let skips := (length decodeErrors + length skipErrors)%nat in
  if persists then
    let rows' := load [] writes (rows s) in
    ({| rows := rows';
        summaries := refresh rows' (touched writes) (summaries s) |},
     {| created := nCreated;
        updated := (length writes - nCreated)%nat;
        skipped := skips;
        errors := decodeErrors ++ skipErrors ++ warnings |})
  else
    (s,
     {| created := 0; updated := 0; skipped := skips;
        errors := decodeErrors ++ skipErrors ++ warnings ++ [PersistenceFailure] |}).

(** Modelled from the spec: the rows a batch holds, in the order the
    loader takes them. *)
Definition pendingOf (batch : list Source) : list Pending :=
  pass1 (fst (transformAll (fst (readAll batch)))).

(** Modelled from the spec: what the loader writes for a batch, resolved
    against the keys already stored. *)
Definition writesOf (batch : list Source) (stored : list Key) : list (Key * RowValue) :=
  fst (pass2 (record (pendingOf batch) []) stored (pendingOf batch)).

End Engine.

(** Modelled from the spec: a valid document decodes to one resource, of
    one of the eight types, with an id and, unless it is a Patient, a
    patient reference. *)
Definition validResource (r : Resource) : Prop :=
  match resourceType r with
  | Some discriminator =>
      match classify discriminator with
      | Some Patient => is_Some (id r)
      | Some _ => is_Some (id r) /\ is_Some (patientRef r)
      | None => False
      end
  | None => False
  end.

(** Modelled from the spec: the valid sources of a batch. *)
Inductive valid : Source -> Prop :=
| valid_single name r : validResource r -> valid (Single name r).

(** Sample documents: a patient, two of its child resources listed before
    and after it, and a source that does not decode. *)
Definition columns (ty : ResourceType) (r : Resource) : Fields :=
  map (fun c => (fst c, Some (snd c))) (content r).

Definition patientDoc (i birth : string) : Resource :=
  {| resourceType := Some "Patient"; id := Some i; patientRef := None;
     encounterRef := None; content := [("birth_date", birth)] |}.

Definition childDoc (discriminator i p : string) (e : option string) : Resource :=
  {| resourceType := Some discriminator; id := Some i; patientRef := Some p;
     encounterRef := e; content := [("status", "final")] |}.

Definition emptyStore : Store := {| rows := []; summaries := [] |}.

Definition nineValid : list Source :=
  [Single "c1.json" (childDoc "Condition" "c1" "p1" (Some "e1"));
   Single "p1.json" (patientDoc "p1" "1980-02-01");
   Single "e1.json" (childDoc "Encounter" "e1" "p1" None);
   Single "o1.json" (childDoc "Observation" "o1" "p1" (Some "e1"));
   Single "i1.json" (childDoc "Immunization" "i1" "p1" None);
   Single "k1.json" (childDoc "CarePlan" "k1" "p1" None);
   Single "m1.json" (childDoc "MedicationRequest" "m1" "p2" None);
   Single "r1.json" (childDoc "Procedure" "r1" "p1" (Some "e9"));
   Single "p3.json" (patientDoc "p3" "1975")].

Definition tenDocuments : list Source :=
  firstn 4 nineValid ++ Malformed "broken.json" :: skipn 4 nineValid.

End Ingestion.

(** ** Runs of the application, request by request *)

(** The URL each request of a run is issued under: the one stored when the
    request is made; a request made while the stored URL is empty throws
    and issues nothing. *)
Fixpoint urlsIssued {K} (current : string) (ops : list (Op K)) : list string :=
  match ops with
  | [] => []
  | OpSetMySqlUrl u :: ops' => urlsIssued u ops'
  | OpRequest _ _ :: ops' =>
      if Js.truthy current then current :: urlsIssued current ops'
      else urlsIssued current ops'
  end.

(** ** emr.component.ts, the earlier version kept in the sources *)

Module EmrComponentEarlier.

Record t := {
  patient : option Json;
  encounters : Json;
  encounterDetails : option Json
}.

Definition constructor : t :=
  {| patient := None; encounters := JArr []; encounterDetails := None |}.

Inductive Callback := SetPatient | SetEncounters | SetEncounterDetails.

Definition fetch (o : M MedicalRecordService.t Observable) (k : Callback)
  : M (t * World Callback) unit :=
  let* obs := onSnd (onService o) in
  onSnd (subscribe obs k).

Definition fetchPatientDetails (patientId : string) :=
  fetch (MedicalRecordService.getPatientEMR patientId) SetPatient.

Definition fetchPatientEncounters (patientId : string) :=
  fetch (MedicalRecordService.getPatientEncounters patientId) SetEncounters.

Definition viewEncounterDetails (encounterId : string) :=
  fetch (MedicalRecordService.getEncounterDetails encounterId) SetEncounterDetails.

Definition ngOnInit (paramMap : EmrComponent.ParamMap) : M (t * World Callback) unit :=
  match EmrComponent.paramGet "id" paramMap with
  | Some patientId =>
      if Js.truthy patientId then
        fetchPatientDetails patientId ;;
        fetchPatientEncounters patientId
      else ret tt
  | None => ret tt
  end.

End EmrComponentEarlier.

(** * Theorems *)

(** ** The service *)

Section ServiceFacts.

Import MedicalRecordService.

Context {K : Type}.

Lemma validate_empty (s : t) :
  mysqlUrl s = "" -> validateMySqlUrl s = (Threw notSet, s).
Proof.
  intros H. unfold validateMySqlUrl, bind, gets. rewrite H. reflexivity.
Qed.

Lemma validate_set (s : t) :
  mysqlUrl s <> "" -> validateMySqlUrl s = (Ret tt, s).
Proof.
  intros H. unfold validateMySqlUrl, bind, gets.
  destruct (mysqlUrl s); [congruence | reflexivity].
Qed.

Lemma call_empty (m : Method) (s : t) :
  mysqlUrl s = "" -> call m s = (Threw notSet, s).
Proof.
  intros H.
  destruct m; cbn [call];
    unfold getUserEncounters, getEncounterDetails, getPatientObservations,
      getPatientImmunizations, getPatientConditions,
      getPatientMedicationRequests, getPatientCareplans, getDashboardData,
      uploadFiles, getPatientEMR, getAllPatients, searchPatientsByName,
      getPatientEncounters, getWith;
    unfold bind at 1; rewrite (validate_empty s H); reflexivity.
Qed.

Lemma call_set (m : Method) (s : t) :
  mysqlUrl s <> "" ->
  exists r, call m s = (Ret r, s) /\ carriesMySqlUrl r (mysqlUrl s).
Proof.
  intros H.
  destruct m; cbn [call];
    unfold getUserEncounters, getEncounterDetails, getPatientObservations,
      getPatientImmunizations, getPatientConditions,
      getPatientMedicationRequests, getPatientCareplans, getDashboardData,
      uploadFiles, getPatientEMR, getAllPatients, searchPatientsByName,
      getPatientEncounters, getWith;
    unfold bind at 1; rewrite (validate_set s H);
    unfold bind, endpoint, gets, ret; cbn;
    eexists; (split; [reflexivity |]); cbn;
    try reflexivity.
  apply in_or_app. right. left. reflexivity.
Qed.

Lemma request_empty (m : Method) (k : K) (w : World K) :
  mysqlUrl (service w) = "" -> request m k w = (Threw notSet, w).
Proof.
  intros H. unfold request, bind, onService.
  rewrite (call_empty m _ H). destruct w; reflexivity.
Qed.

Lemma request_set (m : Method) (k : K) (w : World K) :
  mysqlUrl (service w) <> "" ->
  exists r,
    request m k w
    = (Ret tt, {| service := service w; inflight := inflight w ++ [(r, k)] |})
    /\ carriesMySqlUrl r (mysqlUrl (service w)).
Proof.
  intros H. destruct (call_set m _ H) as (r & Hc & Hu).
  exists r. split; [| exact Hu].
  unfold request, bind, onService. rewrite Hc. reflexivity.
Qed.

Lemma request_service (m : Method) (k : K) (w : World K) :
  service (snd (request m k w)) = service w.
Proof.
  destruct (string_dec (mysqlUrl (service w)) "") as [H | H].
  - rewrite (request_empty m k w H). reflexivity.
  - destruct (request_set m k w H) as (r & -> & _). reflexivity.
Qed.

Lemma run_snoc (ops : list (Op K)) (op : Op K) (w : World K) :
  run (ops ++ [op]) w = step (run ops w) op.
Proof. unfold run. rewrite fold_left_app. reflexivity. Qed.

(** The stored URL is empty only after a [setMySqlUrl('')] that no later
    [setMySqlUrl] has overwritten. *)
Lemma run_empty_url (ops : list (Op K)) :
  mysqlUrl (service (run ops boot)) = "" ->
  exists before after,
    ops = before ++ OpSetMySqlUrl "" :: after
    /\ forallb (fun op => negb (isSet op)) after = true.
Proof.
  induction ops as [| op ops IH] using rev_ind.
  - cbn. discriminate.
  - rewrite run_snoc. destruct op as [u | m k]; cbn [step].
    + unfold onService, setMySqlUrl, modify. cbn. intros ->.
      exists ops, []. split; reflexivity.
    + rewrite request_service. intros H.
      destruct (IH H) as (before & after & -> & Hafter).
      exists before, (after ++ [OpRequest m k]). split.
      * rewrite <- app_assoc. reflexivity.
      * rewrite forallb_app, Hafter. reflexivity.
Qed.

End ServiceFacts.

(** C8. Every HTTP-issuing method of the service, called and subscribed to,
    throws [Error('MySQL URL is not set')] and leaves the application as it
    was (so no request is sent) when the stored URL is empty; otherwise it
    sends one request, which carries the stored URL under [mysql_url]. The
    constructor stores a non-empty URL, so a call throws only in a run of
    the application in which [setMySqlUrl('')] was the last [setMySqlUrl]. *)
Theorem mysql_url_guard (K : Type) :
  (forall (w : World K) m k,
      MedicalRecordService.mysqlUrl (service w) = "" ->
      request m k w = (Threw (Js.MkError "MySQL URL is not set"), w))
  /\ (forall (w : World K) m k,
      MedicalRecordService.mysqlUrl (service w) <> "" ->
      exists r,
        request m k w
        = (Ret tt, {| service := service w; inflight := inflight w ++ [(r, k)] |})
        /\ carriesMySqlUrl r (MedicalRecordService.mysqlUrl (service w)))
  /\ MedicalRecordService.mysqlUrl MedicalRecordService.constructor <> ""
  /\ (forall (ops : list (Op K)) m k,
      threw (request m k (run ops boot)) ->
      exists before after,
        ops = before ++ OpSetMySqlUrl "" :: after
        /\ forallb (fun op => negb (isSet op)) after = true).
Proof.
  split; [| split; [| split]].
  - intros w m k H. apply request_empty, H.
  - intros w m k H. apply request_set, H.
  - discriminate.
  - intros ops m k Hthrew. apply run_empty_url.
    destruct (string_dec (MedicalRecordService.mysqlUrl (service (run ops boot))) "")
      as [H | H]; [exact H |].
    destruct (request_set m k _ H) as (r & Hr & _).
    rewrite Hr in Hthrew. destruct Hthrew.
Qed.

(** A run in which the URL is cleared and the patients are then asked
    for, and the same request in a fresh application. *)
Lemma mysql_url_guard_witness :
  request MedicalRecordService.GetAllPatients tt
    (run [OpSetMySqlUrl "x"; OpSetMySqlUrl ""] boot)
  = (Threw (Js.MkError "MySQL URL is not set"),
     run [OpSetMySqlUrl "x"; OpSetMySqlUrl ""] boot)
  /\ (exists r,
        request MedicalRecordService.GetAllPatients tt boot
        = (Ret tt,
           {| service := MedicalRecordService.constructor; inflight := [(r, tt)] |})
        /\ carriesMySqlUrl r "mysql+pymysql://root@localhost:3306/healthcare_db")
  /\ exists before after,
      [OpSetMySqlUrl "x"; OpSetMySqlUrl ""] = before ++ OpSetMySqlUrl "" :: after
      /\ forallb (fun op : Op unit => negb (isSet op)) after = true.
Proof.
  split; [| split].
  - exact (proj1 (mysql_url_guard unit)
             (run [OpSetMySqlUrl "x"; OpSetMySqlUrl ""] boot)
             MedicalRecordService.GetAllPatients tt eq_refl).
  - refine (proj1 (proj2 (mysql_url_guard unit)) boot
              MedicalRecordService.GetAllPatients tt _).
    cbn. discriminate.
  - exact (proj2 (proj2 (proj2 (mysql_url_guard unit)))
             [OpSetMySqlUrl "x"; OpSetMySqlUrl ""]
             MedicalRecordService.GetAllPatients tt I).
Defined.

(** C9. [setMySqlUrl(u)] followed by [getMySqlUrl()] returns [u]; neither
    call throws, and the base URL of the service and the subscriptions in
    flight are as before. *)
Theorem setMySqlUrl_getMySqlUrl (K : Type) (u : string) (w : World K) :
  let w1 := snd (onService (MedicalRecordService.setMySqlUrl u) w) in
  fst (onService (MedicalRecordService.setMySqlUrl u) w) = Ret tt
  /\ onService MedicalRecordService.getMySqlUrl w1 = (Ret u, w1)
  /\ MedicalRecordService.baseUrl (service w1) = MedicalRecordService.baseUrl (service w)
  /\ inflight w1 = inflight w.
Proof.
  destruct w as [[b m] fl]. cbn. repeat split; reflexivity.
Qed.

(** ** The upload component *)

Section UploadFacts.

Import UploadComponent.

Lemma appendFiles_map (files : list Http.File) (fd : Http.FormData) :
  appendFiles files fd = fd ++ map fileEntry files.
Proof.
  unfold appendFiles. revert fd.
  induction files as [| f files IH]; intros fd; cbn.
  - rewrite app_nil_r. reflexivity.
  - rewrite IH. unfold Http.append. rewrite <- app_assoc. reflexivity.
Qed.

(** The form that [uploadFiles] builds before it calls the service. *)
Lemma form_of_chosen (c : t) :
  appendFiles (directoryFiles c)
    (match selectedFiles c with
     | Some fileList => appendFiles fileList []
     | None => []
     end)
  = map fileEntry (chosen c).
Proof.
  unfold chosen. rewrite !appendFiles_map.
  destruct (selectedFiles c); cbn; [| reflexivity].
  rewrite appendFiles_map, map_app. reflexivity.
Qed.

Lemma guard_of_chosen (c : t) :
  chosen c <> [] ->
  Js.truthy_obj (selectedFiles c) || (0 <? length (directoryFiles c))%nat = true.
Proof.
  unfold chosen. destruct (selectedFiles c) as [sel |]; cbn; [reflexivity |].
  destruct (directoryFiles c); cbn; [congruence | reflexivity].
Qed.

Lemma uploadFiles_branch (c : t) (w : World Callback) :
  Js.truthy_obj (selectedFiles c) || (0 <? length (directoryFiles c))%nat = true ->
  uploadFiles (c, w)
  = if Js.truthy (MedicalRecordService.mysqlUrl (service w)) then
      (Ret tt,
       (setIsUploading true c,
        {| service := service w;
           inflight := inflight w ++ [(uploadRequest c (service w), UploadObserver)] |}))
    else
      (Threw MedicalRecordService.notSet, (setIsUploading true c, w)).
Proof.
  intros Hg. unfold uploadFiles.
  unfold bind at 1. cbn [onFst gets fst snd].
  unfold bind at 1. cbn [onFst gets fst snd].
  rewrite Hg.
  unfold bind at 1. cbn [onFst modify fst snd].
  rewrite (form_of_chosen c).
  unfold bind at 1. unfold onSnd, onService. cbn [fst snd].
  unfold MedicalRecordService.uploadFiles.
  unfold bind at 1.
  destruct w as [[b u] fl]. cbn [service inflight].
  destruct u as [| a u].
  - reflexivity.
  - reflexivity.
Qed.

End UploadFacts.

(** C4 (as amended). An upload invoked with at least one chosen file, while
    the stored MySQL URL is not empty, sends exactly one request: a POST to
    [/upload] whose form holds every selected file and then every directory
    file, each under the key [files], followed by the stored URL under the
    key [mysql_url]. While the stored URL is empty the service throws
    instead and no request is sent. *)
Theorem uploadFiles_request (c : UploadComponent.t) (w : World UploadComponent.Callback) :
  UploadComponent.chosen c <> [] ->
  (MedicalRecordService.mysqlUrl (service w) <> "" ->
   exists body,
     UploadComponent.uploadFiles (c, w)
     = (Ret tt,
        (UploadComponent.setIsUploading true c,
         {| service := service w;
            inflight := inflight w
              ++ [(Http.POST (MedicalRecordService.baseUrl (service w) +:+ "/upload") body,
                   UploadComponent.UploadObserver)] |}))
     /\ body
        = map (fun f => ("files", Http.FFile f (Http.name f)))
            (Js.nullish (UploadComponent.selectedFiles c) []
             ++ UploadComponent.directoryFiles c)
          ++ [("mysql_url", Http.FText (MedicalRecordService.mysqlUrl (service w)))])
  /\ (MedicalRecordService.mysqlUrl (service w) = "" ->
      fst (UploadComponent.uploadFiles (c, w)) = Threw (Js.MkError "MySQL URL is not set")
      /\ snd (snd (UploadComponent.uploadFiles (c, w))) = w).
Proof.
  intros Hc.
  pose proof (uploadFiles_branch c w (guard_of_chosen c Hc)) as Hb.
  split; intros Hu.
  - eexists. split; [| reflexivity].
    rewrite Hb. destruct (MedicalRecordService.mysqlUrl (service w)) eqn:E;
      [congruence |].
    cbn [Js.truthy]. unfold UploadComponent.uploadRequest, UploadComponent.fileEntry, UploadComponent.chosen. rewrite E. reflexivity.
  - rewrite Hb, Hu. cbn. split; reflexivity.
Qed.

(** One selected file and one directory file, uploaded from a fresh
    application. *)
Lemma uploadFiles_request_witness :
  exists body,
    UploadComponent.uploadFiles (UploadComponent.oneOfEach, boot)
    = (Ret tt,
       (UploadComponent.setIsUploading true UploadComponent.oneOfEach,
        {| service := MedicalRecordService.constructor;
           inflight := [(Http.POST "http://127.0.0.1:5000/upload" body,
                         UploadComponent.UploadObserver)] |}))
    /\ body
       = [("files", Http.FFile UploadComponent.file1 "patient1.json");
          ("files", Http.FFile UploadComponent.file2 "bundle.json");
          ("mysql_url",
           Http.FText "mysql+pymysql://root@localhost:3306/healthcare_db")].
Proof.
  refine (proj1 (uploadFiles_request UploadComponent.oneOfEach boot _) _).
  - cbn. discriminate.
  - cbn. discriminate.
Defined.

(** C4, as it was stated, fails once the URL has been cleared: a file is
    chosen, and the upload throws without sending anything. *)
Lemma uploadFiles_request_counterexample :
  UploadComponent.chosen UploadComponent.oneSelected = [UploadComponent.file1]
  /\ UploadComponent.uploadFiles
       (UploadComponent.oneSelected, UploadComponent.urlCleared)
     = (Threw (Js.MkError "MySQL URL is not set"),
        (UploadComponent.setIsUploading true UploadComponent.oneSelected,
         UploadComponent.urlCleared))
  /\ ~ (exists r,
          sent (snd (snd (UploadComponent.uploadFiles
                            (UploadComponent.oneSelected,
                             UploadComponent.urlCleared))))
          = sent UploadComponent.urlCleared ++ [r]).
Proof.
  cbn. repeat split. intros [r Hr]. discriminate Hr.
Qed.

(** The guarded branch of [uploadFiles]: with [selectedFiles] null and no
    directory file, only the message changes and nothing is sent. *)
Lemma uploadFiles_nothing_selected (c : UploadComponent.t) (w : World UploadComponent.Callback) :
  UploadComponent.selectedFiles c = None ->
  UploadComponent.directoryFiles c = [] ->
  UploadComponent.uploadFiles (c, w)
  = (Ret tt, (UploadComponent.setUploadMessage "Please select files to upload." c, w)).
Proof.
  intros Hs Hd. unfold UploadComponent.uploadFiles, bind, onFst, gets, modify.
  cbn. rewrite Hs, Hd. cbn. destruct w. reflexivity.
Qed.

(** The state of C10's failing input is the one [onFileSelected] leaves
    when the change event carries an empty [FileList]. *)
Example onFileSelected_empty :
  UploadComponent.onFileSelected (Some []) UploadComponent.constructor
  = (Ret tt, UploadComponent.emptyFileList).
Proof. reflexivity. Qed.

(** C10. With an empty [FileList] in [selectedFiles] (no file selected) and
    no directory file, [uploadFiles] does not take the branch that sets the
    message: it raises [isUploading], leaves [uploadMessage] as it was and
    sends a POST to [/upload] that holds no file. *)
Theorem uploadFiles_empty_FileList :
  UploadComponent.chosen UploadComponent.emptyFileList = []
  /\ UploadComponent.uploadFiles (UploadComponent.emptyFileList, boot)
     = (Ret tt,
        ({| UploadComponent.selectedFiles := Some [];
            UploadComponent.directoryFiles := [];
            UploadComponent.isUploading := true;
            UploadComponent.uploadMessage := "" |},
         {| service := MedicalRecordService.constructor;
            inflight :=
              [(Http.POST "http://127.0.0.1:5000/upload"
                  [("mysql_url",
                    Http.FText "mysql+pymysql://root@localhost:3306/healthcare_db")],
                UploadComponent.UploadObserver)] |})).
Proof.
  cbn. split; reflexivity.
Qed.

(** ** The EMR component *)

Section EmrFacts.

Import EmrComponent.

Lemma bind_ret {S A B} (m : M S A) (k : A -> M S B) (s s' : S) (a : A) :
  m s = (Ret a, s') -> bind m k s = k a s'.
Proof. intros H. unfold bind. rewrite H. reflexivity. Qed.

Lemma bind_threw {S A B} (m : M S A) (k : A -> M S B) (s s' : S) (e : Js.Error) :
  m s = (Threw e, s') -> bind m k s = (Threw e, s').
Proof. intros H. unfold bind. rewrite H. reflexivity. Qed.

Lemma getWith_set (path key value : string) (s : MedicalRecordService.t) :
  MedicalRecordService.mysqlUrl s <> "" ->
  MedicalRecordService.getWith path key value s
  = (Ret (Http.GET (MedicalRecordService.baseUrl s +:+ path)
            (Http.set key value [("mysql_url", MedicalRecordService.mysqlUrl s)])),
     s).
Proof.
  intros H. unfold MedicalRecordService.getWith.
  rewrite (bind_ret _ _ _ _ _ (validate_set s H)). reflexivity.
Qed.

Lemma getWith_empty (path key value : string) (s : MedicalRecordService.t) :
  MedicalRecordService.mysqlUrl s = "" ->
  MedicalRecordService.getWith path key value s
  = (Threw MedicalRecordService.notSet, s).
Proof.
  intros H. unfold MedicalRecordService.getWith.
  rewrite (bind_threw _ _ _ _ _ (validate_empty s H)). reflexivity.
Qed.

Lemma fetch_ret o k r (c : t) (w : World Callback) :
  o (service w) = (Ret r, service w) ->
  fetch o k (c, w)
  = (Ret tt, (c, {| service := service w; inflight := inflight w ++ [(r, k)] |})).
Proof.
  intros H. unfold fetch, bind, onSnd, onService, subscribe, modify. cbn.
  rewrite H. reflexivity.
Qed.

Lemma fetch_threw o k e (c : t) (w : World Callback) :
  o (service w) = (Threw e, service w) ->
  fetch o k (c, w) = (Threw e, (c, w)).
Proof.
  intros H. unfold fetch, bind, onSnd, onService. cbn.
  rewrite H. destruct w; reflexivity.
Qed.

(** The subscriptions [ngOnInit] leaves for a patient: the seven requests,
    each with the callback that stores its response. *)
Lemma ngOnInit_fetches (pm : ParamMap) (patientId : string) (c : t) (w : World Callback) :
  paramGet "id" pm = Some patientId ->
  patientId <> "" ->
  MedicalRecordService.mysqlUrl (service w) <> "" ->
  ngOnInit pm (c, w)
  = (Ret tt,
     (c, {| service := service w;
            inflight := inflight w ++
              combine (patientFetches (MedicalRecordService.baseUrl (service w))
                         (MedicalRecordService.mysqlUrl (service w)) patientId)
                [SetPatient; SetEncounters; SetObservations; SetImmunizations;
                 SetCarePlans; SetConditions; SetMedicationRequests] |})).
Proof.
  intros Hid Hne Hu. unfold ngOnInit. rewrite Hid.
  destruct patientId as [| a p]; [congruence |]. cbn [Js.truthy].
  unfold fetchPatientDetails, fetchPatientEncounters, fetchObservations,
    fetchImmunizations, fetchCarePlans, fetchConditions, fetchMedicationRequests,
    MedicalRecordService.getPatientEMR, MedicalRecordService.getPatientEncounters,
    MedicalRecordService.getPatientObservations,
    MedicalRecordService.getPatientImmunizations,
    MedicalRecordService.getPatientCareplans,
    MedicalRecordService.getPatientConditions,
    MedicalRecordService.getPatientMedicationRequests.
  repeat (erewrite bind_ret;
          [| apply fetch_ret; cbn [service]; apply getWith_set; exact Hu]).
  erewrite fetch_ret; [| cbn [service]; apply getWith_set; exact Hu].
  cbn [service inflight]. rewrite <- !app_assoc. reflexivity.
Qed.

Lemma ngOnInit_threw (pm : ParamMap) (patientId : string) (c : t) (w : World Callback) :
  paramGet "id" pm = Some patientId ->
  patientId <> "" ->
  MedicalRecordService.mysqlUrl (service w) = "" ->
  ngOnInit pm (c, w) = (Threw MedicalRecordService.notSet, (c, w)).
Proof.
  intros Hid Hne Hu. unfold ngOnInit. rewrite Hid.
  destruct patientId as [| a p]; [congruence |]. cbn [Js.truthy].
  apply bind_threw. apply fetch_threw. apply getWith_empty, Hu.
Qed.

Lemma ngOnInit_no_id (pm : ParamMap) (c : t) (w : World Callback) :
  paramGet "id" pm = None -> ngOnInit pm (c, w) = (Ret tt, (c, w)).
Proof. intros H. unfold ngOnInit. rewrite H. reflexivity. Qed.

End EmrFacts.

(** C5 (as amended). While the stored MySQL URL is not empty: for every
    non-empty patient id in the route, [ngOnInit] sends the request for the
    patient's detail record and the requests for the patient's encounters,
    observations, immunizations, care plans, conditions and medication
    requests, each with the patient id, and nothing else; and
    [viewEncounterDetails] sends the request for one encounter's detail with
    the encounter id. When the route has no patient id, [ngOnInit] sends
    nothing, whatever the URL. *)
Theorem emr_fetches (pm : EmrComponent.ParamMap) (c : EmrComponent.t)
    (w : World EmrComponent.Callback) :
  (forall patientId,
      EmrComponent.paramGet "id" pm = Some patientId ->
      patientId <> "" ->
      MedicalRecordService.mysqlUrl (service w) <> "" ->
      fst (EmrComponent.ngOnInit pm (c, w)) = Ret tt
      /\ sent (snd (snd (EmrComponent.ngOnInit pm (c, w))))
         = sent w ++
           map (fun path =>
                  Http.GET (MedicalRecordService.baseUrl (service w) +:+ path)
                    [("mysql_url", MedicalRecordService.mysqlUrl (service w));
                     ("patient_id", patientId)])
               ["/search_patient"; "/get_user_encounters"; "/observations/patient";
                "/immunizations/patient"; "/careplans/patient";
                "/conditions/patient"; "/medication-requests/patient"])
  /\ (forall encounterId,
      MedicalRecordService.mysqlUrl (service w) <> "" ->
      fst (EmrComponent.viewEncounterDetails encounterId (c, w)) = Ret tt
      /\ sent (snd (snd (EmrComponent.viewEncounterDetails encounterId (c, w))))
         = sent w ++
           [Http.GET (MedicalRecordService.baseUrl (service w) +:+ "/get_encounter_details")
              [("mysql_url", MedicalRecordService.mysqlUrl (service w));
               ("encounter_id", encounterId)]])
  /\ (EmrComponent.paramGet "id" pm = None ->
      EmrComponent.ngOnInit pm (c, w) = (Ret tt, (c, w))).
Proof.
  split; [| split].
  - intros patientId Hid Hne Hu.
    rewrite (ngOnInit_fetches pm patientId c w Hid Hne Hu).
    split; [reflexivity |].
    unfold sent. cbn [fst snd inflight]. rewrite map_app. reflexivity.
  - intros encounterId Hu.
    unfold EmrComponent.viewEncounterDetails,
      MedicalRecordService.getEncounterDetails.
    erewrite fetch_ret; [| cbn [service]; apply getWith_set; exact Hu].
    split; [reflexivity |].
    unfold sent. cbn [fst snd inflight]. rewrite map_app. reflexivity.
  - apply ngOnInit_no_id.
Qed.

(** The route [patients/p1], opened in a fresh application. *)
Lemma emr_fetches_witness :
  sent (snd (snd (EmrComponent.ngOnInit EmrSamples.routeP1
                    (EmrComponent.constructor, EmrSamples.fresh))))
  = map (fun path =>
           Http.GET ("http://127.0.0.1:5000" +:+ path)
             [("mysql_url", "mysql+pymysql://root@localhost:3306/healthcare_db");
              ("patient_id", "p1")])
        ["/search_patient"; "/get_user_encounters"; "/observations/patient";
         "/immunizations/patient"; "/careplans/patient";
         "/conditions/patient"; "/medication-requests/patient"]
  /\ sent (snd (snd (EmrComponent.viewEncounterDetails "e7"
                       (EmrComponent.constructor, EmrSamples.fresh))))
     = [Http.GET "http://127.0.0.1:5000/get_encounter_details"
          [("mysql_url", "mysql+pymysql://root@localhost:3306/healthcare_db");
           ("encounter_id", "e7")]]
  /\ EmrComponent.ngOnInit EmrSamples.noId (EmrComponent.constructor, EmrSamples.fresh)
     = (Ret tt, (EmrComponent.constructor, EmrSamples.fresh)).
Proof.
  split; [| split].
  - refine (proj2 (proj1 (emr_fetches EmrSamples.routeP1 EmrComponent.constructor
                            EmrSamples.fresh) "p1" _ _ _)).
    + reflexivity.
    + discriminate.
    + cbn. discriminate.
  - refine (proj2 (proj1 (proj2 (emr_fetches EmrSamples.noId EmrComponent.constructor
                                   EmrSamples.fresh)) "e7" _)).
    cbn. discriminate.
  - refine (proj2 (proj2 (emr_fetches EmrSamples.noId EmrComponent.constructor
                            EmrSamples.fresh)) _).
    reflexivity.
Defined.

(** C5, as it was stated, fails once the URL has been cleared: the route
    names patient [p1], the first fetch throws, and nothing is sent. *)
Lemma emr_fetches_counterexample :
  EmrComponent.paramGet "id" EmrSamples.routeP1 = Some "p1"
  /\ EmrComponent.ngOnInit EmrSamples.routeP1
       (EmrComponent.constructor, EmrSamples.urlCleared)
     = (Threw (Js.MkError "MySQL URL is not set"),
        (EmrComponent.constructor, EmrSamples.urlCleared))
  /\ sent (snd (snd (EmrComponent.ngOnInit EmrSamples.routeP1
                       (EmrComponent.constructor, EmrSamples.urlCleared))))
     = []
  /\ sent (snd (snd (EmrComponent.ngOnInit EmrSamples.routeP1
                       (EmrComponent.constructor, EmrSamples.urlCleared))))
     <> sent EmrSamples.urlCleared
        ++ EmrComponent.patientFetches "http://127.0.0.1:5000" "" "p1".
Proof.
  cbn. repeat split. discriminate.
Qed.

(** ** The patients component *)

Section StringFacts.

#[local] Arguments String.append !s1 s2 : simpl nomatch.

Lemma append_assoc (a b c : string) : (a +:+ b) +:+ c = a +:+ (b +:+ c).
Proof. induction a as [| x a IH]; cbn; [reflexivity | rewrite IH; reflexivity]. Qed.

Lemma append_empty_r (a : string) : a +:+ "" = a.
Proof. induction a as [| x a IH]; cbn; [reflexivity | rewrite IH; reflexivity]. Qed.

Lemma lowerBasicLatin_append (a b : string) :
  Js.lowerBasicLatin (a +:+ b) = Js.lowerBasicLatin a +:+ Js.lowerBasicLatin b.
Proof. induction a as [| x a IH]; cbn; [reflexivity | rewrite IH; reflexivity]. Qed.

(** A split of the lowered string is the lowering of a split. *)
Lemma lowerBasicLatin_split (s x y : string) :
  Js.lowerBasicLatin s = x +:+ y ->
  exists s1 s2, s = s1 +:+ s2 /\ Js.lowerBasicLatin s1 = x /\ Js.lowerBasicLatin s2 = y.
Proof.
  revert s. induction x as [| c x IH]; intros s H.
  - exists "", s. cbn in *. auto.
  - destruct s as [| d s]; cbn in H; [discriminate |].
    injection H as Hc Hs. destruct (IH s Hs) as (s1 & s2 & -> & H1 & H2).
    exists (String d s1), s2. cbn. rewrite H1, Hc. auto.
Qed.

Lemma nat_of_lower_char (a : ascii) :
  nat_of_ascii (Js.lower_char a)
  = if Js.is_upper a then nat_of_ascii a + 32 else nat_of_ascii a.
Proof.
  unfold Js.lower_char. destruct (Js.is_upper a) eqn:E; [| reflexivity].
  apply nat_ascii_embedding.
  unfold Js.is_upper in E. apply andb_true_iff in E as [_ E].
  apply Nat.leb_le in E. lia.
Qed.

Lemma nat_of_ascii_inj (a b : ascii) : nat_of_ascii a = nat_of_ascii b -> a = b.
Proof.
  intros H. rewrite <- (ascii_nat_embedding a), <- (ascii_nat_embedding b), H.
  reflexivity.
Qed.

Lemma is_upper_range (a : ascii) :
  Js.is_upper a = true <-> 65 <= nat_of_ascii a <= 90.
Proof.
  unfold Js.is_upper. rewrite andb_true_iff, !Nat.leb_le. reflexivity.
Qed.

(** The table of letters holds exactly the capitals, each with the
    character 32 places after it. *)
Lemma letterPairs_spec (a b : ascii) :
  In (a, b) PatientsComponent.letterPairs
  <-> Js.is_upper a = true /\ nat_of_ascii b = nat_of_ascii a + 32.
Proof.
  split.
  - intros H. vm_compute in H.
    repeat (destruct H as [H | H];
            [injection H as <- <-; split; reflexivity |]).
    destruct H.
  - intros [Hu Hb].
    assert (E : b = ascii_of_nat (nat_of_ascii a + 32))
      by (rewrite <- Hb; symmetry; apply ascii_nat_embedding).
    subst b. clear Hb.
    destruct a as [[] [] [] [] [] [] [] []]; try discriminate Hu;
      vm_compute; repeat first [left; reflexivity | right].
Qed.

(** Lowering identifies exactly the characters that are the same letter up
    to case. *)
Lemma lower_char_sameLetter (a b : ascii) :
  Js.lower_char a = Js.lower_char b <-> PatientsComponent.sameLetter a b.
Proof.
  unfold PatientsComponent.sameLetter. rewrite !letterPairs_spec. split.
  - intros H. apply (f_equal nat_of_ascii) in H.
    rewrite !nat_of_lower_char in H.
    destruct (Js.is_upper a) eqn:Ea, (Js.is_upper b) eqn:Eb.
    + left. apply nat_of_ascii_inj. lia.
    + right. left. split; [reflexivity | lia].
    + right. right. split; [reflexivity | lia].
    + left. apply nat_of_ascii_inj. exact H.
  - intros [-> | [[Ha Hb] | [Hb Ha]]]; [reflexivity | |];
      apply nat_of_ascii_inj; rewrite !nat_of_lower_char.
    + rewrite Ha. destruct (Js.is_upper b) eqn:Eb; [| lia].
      apply is_upper_range in Ha, Eb. lia.
    + rewrite Hb. destruct (Js.is_upper a) eqn:Ea; [| lia].
      apply is_upper_range in Hb, Ea. lia.
Qed.

Lemma lowerBasicLatin_equalIgnoringCase (s t : string) :
  Js.lowerBasicLatin s = Js.lowerBasicLatin t <-> PatientsComponent.equalIgnoringCase s t.
Proof.
  split.
  - revert t. induction s as [| a s IH]; intros [| b t] H; cbn in H;
      try discriminate.
    + constructor.
    + injection H as Hc Hs. constructor.
      * apply lower_char_sameLetter, Hc.
      * apply IH, Hs.
  - induction 1 as [| a b s t Hab _ IH]; cbn; [reflexivity |].
    apply lower_char_sameLetter in Hab. rewrite Hab, IH. reflexivity.
Qed.

Lemma startsWith_prefix (s q : string) :
  Js.startsWith s q = true <-> exists rest, s = q +:+ rest.
Proof.
  revert s. induction q as [| b q IH]; intros s; cbn.
  - split; [intros _; exists s; reflexivity | intros _; destruct s; reflexivity].
  - destruct s as [| a s]; cbn [Js.startsWith].
    + split; [discriminate | intros [rest H]; discriminate].
    + destruct (Ascii.eqb_spec a b) as [-> | Hne].
      * rewrite IH. split; intros [rest H]; exists rest.
        -- rewrite H. reflexivity.
        -- cbn in H. injection H as H. exact H.
      * split; [discriminate |]. intros [rest H]. cbn in H.
        injection H as H1 H2. contradiction.
Qed.

(** [includes] finds [q] exactly when [s] is [q] between two strings. *)
Lemma includes_substring (s q : string) :
  Js.includes s q = true <-> exists before after, s = before +:+ q +:+ after.
Proof.
  induction s as [| a s IH]; cbn [Js.includes]; rewrite orb_true_iff.
  - rewrite startsWith_prefix. split.
    + intros [[rest H] | H]; [| discriminate]. exists "", rest. exact H.
    + intros (before & after & H). left. exists after.
      destruct before; [exact H | discriminate].
  - rewrite startsWith_prefix, IH. split.
    + intros [[rest H] | (before & after & H)].
      * exists "", rest. exact H.
      * exists (String a before), after. cbn. rewrite H. reflexivity.
    + intros (before & after & H). destruct before as [| b before].
      * left. exists after. exact H.
      * right. cbn in H. injection H as _ H. exists before, after. exact H.
Qed.

(** On lowered Basic Latin the test of the filter is case-insensitive
    containment. *)
Lemma includes_lowerBasicLatin (s q : string) :
  Js.includes (Js.lowerBasicLatin s) (Js.lowerBasicLatin q) = true
  <-> PatientsComponent.containsIgnoringCase s q.
Proof.
  rewrite includes_substring. unfold PatientsComponent.containsIgnoringCase. split.
  - intros (before & after & H).
    apply lowerBasicLatin_split in H as (s1 & s23 & -> & H1 & H23).
    apply lowerBasicLatin_split in H23 as (s2 & s3 & -> & H2 & H3).
    exists s1, s2, s3. split; [reflexivity |].
    apply lowerBasicLatin_equalIgnoringCase, H2.
  - intros (before & middle & after & -> & H).
    apply lowerBasicLatin_equalIgnoringCase in H.
    exists (Js.lowerBasicLatin before), (Js.lowerBasicLatin after).
    rewrite !lowerBasicLatin_append, H. reflexivity.
Qed.

Lemma isBasicLatin_append (a b : string) :
  Js.isBasicLatin (a +:+ b) = Js.isBasicLatin a && Js.isBasicLatin b.
Proof.
  induction a as [| x a IH]; cbn [Js.isBasicLatin String.append]; [reflexivity |].
  rewrite IH, andb_assoc. reflexivity.
Qed.

Lemma sameLetter_basicLatin (a b : ascii) :
  PatientsComponent.sameLetter a b ->
  (nat_of_ascii a <? 128)%nat = (nat_of_ascii b <? 128)%nat.
Proof.
  unfold PatientsComponent.sameLetter.
  intros [-> | [H | H]]; [reflexivity | |]; vm_compute in H;
    repeat (destruct H as [H | H]; [injection H as <- <-; reflexivity |]);
    destruct H.
Qed.

Lemma equalIgnoringCase_basicLatin (s t : string) :
  PatientsComponent.equalIgnoringCase s t -> Js.isBasicLatin s = Js.isBasicLatin t.
Proof.
  induction 1 as [| a b s t Hab _ IH]; cbn [Js.isBasicLatin]; [reflexivity |].
  rewrite (sameLetter_basicLatin a b Hab), IH. reflexivity.
Qed.

Lemma includes_empty (s : string) : Js.includes s "" = true.
Proof. destruct s; reflexivity. Qed.

End StringFacts.

Section FilterFacts.

Import PatientsComponent.

Lemma filter_SublistWhere {A} (f : A -> bool) (P : A -> Prop) (l : list A) :
  (forall x, f x = true <-> P x) -> SublistWhere P l (List.filter f l).
Proof.
  intros Hf. induction l as [| x l IH]; cbn.
  - constructor.
  - destruct (f x) eqn:E.
    + apply sw_keep; [apply Hf, E | exact IH].
    + apply sw_drop; [| exact IH]. intros HP. apply Hf in HP. congruence.
Qed.

(** [SublistWhere P all] holds of one list only. *)
Lemma SublistWhere_unique {A} (P : A -> Prop) (all l1 l2 : list A) :
  SublistWhere P all l1 -> SublistWhere P all l2 -> l1 = l2.
Proof.
  intros H1. revert l2. induction H1; intros l2 H2; inversion H2; subst;
    try contradiction; try reflexivity.
  - f_equal. auto.
  - auto.
Qed.

Lemma filter_all {A} (f : A -> bool) (l : list A) :
  (forall x, f x = true) -> List.filter f l = l.
Proof.
  intros H. induction l as [| x l IH]; cbn; [reflexivity |].
  rewrite H, IH. reflexivity.
Qed.

Lemma distinctUntilChangedFrom_incl prev l x :
  In x (distinctUntilChangedFrom prev l) -> In x l.
Proof.
  revert prev. induction l as [| y l IH]; intros prev; cbn; [tauto |].
  case_bool_decide; cbn; intros Hin.
  - right. eapply IH, Hin.
  - destruct Hin as [-> | Hin]; [left; reflexivity | right; eapply IH, Hin].
Qed.

Context {L : Js.Lowering}.

Lemma toLowerCase_empty : Js.toLowerCase "" = "".
Proof. rewrite Js.toLowerCase_basicLatin; reflexivity. Qed.

(** What the test of the filter decides: containment of the lowered query
    in the lowered name. *)
Lemma includes_lowered (s q : string) :
  Js.includes (Js.toLowerCase s) (Js.toLowerCase q) = true
  <-> contains (Js.toLowerCase s) (Js.toLowerCase q).
Proof. apply includes_substring. Qed.

(** On Basic Latin it decides containment up to case. *)
Lemma includes_lowered_basicLatin (s q : string) :
  Js.isBasicLatin s = true -> Js.isBasicLatin q = true ->
  Js.includes (Js.toLowerCase s) (Js.toLowerCase q) = true
  <-> containsIgnoringCase s q.
Proof.
  intros Hs Hq. rewrite !Js.toLowerCase_basicLatin by assumption.
  apply includes_lowerBasicLatin.
Qed.

Lemma filter_SublistWhere_on {A} (f : A -> bool) (P Q : A -> Prop) (l : list A) :
  Forall Q l -> (forall x, Q x -> (f x = true <-> P x)) ->
  SublistWhere P l (List.filter f l).
Proof.
  intros HQ Hf. induction HQ as [| x l Hx _ IH]; cbn.
  - constructor.
  - destruct (f x) eqn:E.
    + apply sw_keep; [apply (Hf x Hx), E | exact IH].
    + apply sw_drop; [| exact IH]. intros HP. apply (Hf x Hx) in HP. congruence.
Qed.

(** Each list the stream shows is the filter at a value of the control, or
    at the initial empty string, provided the debounce only drops values. *)
Lemma filteredPatientsStream_values debounce (c : t) valueChanges shown :
  (forall l x, In x (debounce l) -> In x l) ->
  In shown (filteredPatientsStream debounce c valueChanges) ->
  exists query,
    In query (Some "" :: valueChanges) /\ shown = filteredPatients c query.
Proof.
  intros Hd H. unfold filteredPatientsStream in H.
  destruct (proj1 (List.in_map_iff _ _ _) H) as (q & <- & Hq).
  destruct (proj1 (List.in_map_iff _ _ _) Hq) as (query & <- & Hv). clear H Hq.
  exists query. split; [| reflexivity].
  apply Hd. unfold distinctUntilChanged in Hv.
  destruct (debounce _) as [| y l]; [destruct Hv |].
  destruct Hv as [-> | Hv]; [left; reflexivity |].
  right. eapply distinctUntilChangedFrom_incl, Hv.
Qed.

End FilterFacts.

(** C1 (as amended). For every list of patients and every value of the
    search control, the list the view shows is exactly the sublist, in
    order, of the patients whose [full_name], lowered by [toLowerCase],
    contains the lowered query as a substring, the query being the empty
    string when the value is null; for a null value it is the list shown
    for the empty string, which is the full list of patients. When the
    names and the query are of Basic Latin characters, the patients shown
    are those whose [full_name] contains the query up to the case of the
    letters. *)
Theorem filteredPatients_spec (L : Js.Lowering) (c : PatientsComponent.t)
    (query : option string) :
  PatientsComponent.SublistWhere
    (fun patient =>
       PatientsComponent.contains
         (Js.toLowerCase (PatientsComponent.full_name patient))
         (Js.toLowerCase (match query with Some q => q | None => "" end)))
    (PatientsComponent.patients c)
    (PatientsComponent.filteredPatients c query)
  /\ PatientsComponent.filteredPatients c None
     = PatientsComponent.filteredPatients c (Some "")
  /\ PatientsComponent.filteredPatients c (Some "") = PatientsComponent.patients c
  /\ (Forall (fun patient =>
                Js.isBasicLatin (PatientsComponent.full_name patient) = true)
         (PatientsComponent.patients c) ->
      Js.isBasicLatin (match query with Some q => q | None => "" end) = true ->
      PatientsComponent.SublistWhere
        (fun patient =>
           PatientsComponent.containsIgnoringCase
             (PatientsComponent.full_name patient)
             (match query with Some q => q | None => "" end))
        (PatientsComponent.patients c)
        (PatientsComponent.filteredPatients c query)).
Proof.
  split; [| split; [| split]].
  - unfold PatientsComponent.filteredPatients, PatientsComponent.filterStage,
      PatientsComponent.defaulted.
    apply filter_SublistWhere. intros patient.
    destruct query; apply includes_lowered.
  - reflexivity.
  - unfold PatientsComponent.filteredPatients, PatientsComponent.filterStage.
    apply filter_all. intros patient.
    cbn [PatientsComponent.defaulted Js.nullish].
    rewrite toLowerCase_empty. apply includes_empty.
  - intros Hnames Hq.
    unfold PatientsComponent.filteredPatients, PatientsComponent.filterStage,
      PatientsComponent.defaulted.
    eapply filter_SublistWhere_on; [exact Hnames |].
    intros patient Hname. cbn beta in Hname.
    destruct query; apply includes_lowered_basicLatin; assumption.
Qed.

(** Three patients with names of Basic Latin, and the query [aLI]. *)
Lemma filteredPatients_spec_witness :
  PatientsComponent.SublistWhere
    (fun patient =>
       PatientsComponent.containsIgnoringCase
         (PatientsComponent.full_name patient) "aLI")
    (PatientsComponent.patients PatientsComponent.three)
    (PatientsComponent.filteredPatients (L := Js.sampleLowering)
       PatientsComponent.three (Some "aLI")).
Proof.
  refine (proj2 (proj2 (proj2 (filteredPatients_spec Js.sampleLowering
                                 PatientsComponent.three (Some "aLI")))) _ _).
  - cbn. repeat constructor.
  - reflexivity.
Defined.

(** C1, as it was stated, fails on a Greek name in capitals. The name
    [ΑΣΑ] holds the query [ΑΣ] as it is written, so it contains it however
    case is compared; but the name lowers to [ασα] and the query, whose
    sigma is final, to [ας]: the patient is not shown. *)
Lemma filteredPatients_spec_counterexample :
  PatientsComponent.patients PatientsComponent.greek
  = [PatientsComponent.row "7" ("" +:+ "ΑΣ" +:+ "Α")]
  /\ PatientsComponent.containsIgnoringCase "ΑΣΑ" "ΑΣ"
  /\ PatientsComponent.filteredPatients (L := Js.sampleLowering)
       PatientsComponent.greek (Some "ΑΣ")
     = []
  /\ ~ PatientsComponent.SublistWhere
         (fun patient =>
            PatientsComponent.containsIgnoringCase
              (PatientsComponent.full_name patient) "ΑΣ")
         (PatientsComponent.patients PatientsComponent.greek)
         (PatientsComponent.filteredPatients (L := Js.sampleLowering)
            PatientsComponent.greek (Some "ΑΣ")).
Proof.
  assert (Hc : PatientsComponent.containsIgnoringCase "ΑΣΑ" "ΑΣ").
  { exists "", "ΑΣ", "Α". split; [reflexivity |].
    apply lowerBasicLatin_equalIgnoringCase. reflexivity. }
  split; [reflexivity |]. split; [exact Hc |]. split; [reflexivity |].
  intros H. inversion H; subst. contradiction.
Qed.

Example filteredPatients_ali :
  map PatientsComponent.patient_id
    (PatientsComponent.filteredPatients (L := Js.sampleLowering)
       PatientsComponent.three (Some "aLI"))
  = ["1"; "3"].
Proof. reflexivity. Qed.

Example filteredPatients_sto :
  map PatientsComponent.patient_id
    (PatientsComponent.filteredPatients (L := Js.sampleLowering)
       PatientsComponent.three (Some "b st"))
  = ["2"].
Proof. reflexivity. Qed.

Example filteredPatients_null :
  PatientsComponent.filteredPatients (L := Js.sampleLowering)
    PatientsComponent.three None
  = PatientsComponent.patients PatientsComponent.three.
Proof. reflexivity. Qed.

(** The whole name, in capitals, finds the Greek patient that its first
    two letters do not find. *)
Example filteredPatients_greek :
  PatientsComponent.filteredPatients (L := Js.sampleLowering)
    PatientsComponent.greek (Some "ΑΣΑ")
  = PatientsComponent.patients PatientsComponent.greek.
Proof. reflexivity. Qed.

(** C3. The columns of the patient table are, in order, the patient's id,
    full name, birth date, gender and deceased datetime, then seven count
    columns: one for each child entity type (encounters, conditions,
    observations, medication requests, procedures, immunizations, care
    plans), none twice and none for any other type; there are no other
    columns. *)
Theorem displayedColumns_counts :
  omap PatientsComponent.fieldOf PatientsComponent.displayedColumns
  = [PatientsComponent.PatientId; PatientsComponent.FullName;
     PatientsComponent.BirthDate; PatientsComponent.Gender;
     PatientsComponent.DeceasedDatetime]
  /\ omap PatientsComponent.countOf PatientsComponent.displayedColumns
     = [Encounter; Condition; Observation; MedicationRequest; Procedure;
        Immunization; CarePlan]
  /\ omap PatientsComponent.countOf PatientsComponent.displayedColumns
     ≡ₚ List.filter isChild allResourceTypes
  /\ map PatientsComponent.columnOf PatientsComponent.displayedColumns
     = map Some
         (map PatientsComponent.Field
            (omap PatientsComponent.fieldOf PatientsComponent.displayedColumns)
          ++ map PatientsComponent.Count
               (omap PatientsComponent.countOf PatientsComponent.displayedColumns))
  /\ (forall ty : ResourceType, In ty allResourceTypes).
Proof.
  split; [reflexivity |]. split; [reflexivity |]. split; [| split].
  - vm_compute. solve_Permutation.
  - reflexivity.
  - intros []; cbn; tauto.
Qed.

(** ** The population dashboard *)

Section DashboardFacts.

Import PopulationDashboardComponent.

Lemma read_some {A} (f : DashboardData -> option A) (s : t) (d : DashboardData) (x : A) :
  dashboardData s = Some d -> f d = Some x -> read f s = (Ret x, s).
Proof.
  intros Hd Hf. unfold read, bind, gets, defined. cbn. rewrite Hd. cbn.
  rewrite Hf. reflexivity.
Qed.

Lemma read_none {A} (f : DashboardData -> option A) (s : t) (d : DashboardData) :
  dashboardData s = Some d -> f d = None -> read f s = (Threw typeError, s).
Proof.
  intros Hd Hf. unfold read, bind, gets, defined. cbn. rewrite Hd. cbn.
  rewrite Hf. reflexivity.
Qed.

Lemma newChart_run (c : Chart) (s : t) :
  newChart c s
  = (Ret tt, {| dashboardData := dashboardData s; charts := charts s ++ [c];
                console := console s |}).
Proof. reflexivity. Qed.

Lemma tryCatch_ret {S} (body : M S unit) handler (s s' : S) :
  body s = (Ret tt, s') -> tryCatch body handler s = (Ret tt, s').
Proof. intros H. unfold tryCatch. rewrite H. reflexivity. Qed.

Lemma tryCatch_threw {S} (body : M S unit) handler (s s' : S) e :
  body s = (Threw e, s') -> tryCatch body handler s = handler e s'.
Proof. intros H. unfold tryCatch. rewrite H. reflexivity. Qed.

(** With the six fields in the response, the six charts are constructed in
    the order of the source and nothing is caught. *)
Lemma createCharts_run (s : t) (d : DashboardData) g cc im en ms tc :
  dashboardData s = Some d ->
  patients_by_gender d = Some g ->
  conditions_by_category d = Some cc ->
  immunization_over_time d = Some im ->
  encounters_over_time d = Some en ->
  medication_status_distribution d = Some ms ->
  top_conditions d = Some tc ->
  createCharts s
  = (Ret tt,
     {| dashboardData := Some d;
        charts := charts s ++
          [genderChart g g; conditionsCategoryChart cc cc; immunizationChart im im;
           encounterChart en en; medicationStatusChart ms ms;
           topConditionsChart tc tc];
        console := console s |}).
Proof.
  intros Hd Hg Hcc Him Hen Hms Htc. unfold createCharts.
  apply tryCatch_ret.
  repeat first
    [ erewrite bind_ret; [| eapply read_some; [exact Hd | eassumption]]
    | erewrite bind_ret; [| apply newChart_run]; cbn [dashboardData charts console] ].
  rewrite newChart_run. cbn [dashboardData charts console].
  rewrite Hd, <- !app_assoc. reflexivity.
Qed.

End DashboardFacts.

Example yearMonth_2021_3 : PopulationDashboardComponent.yearMonth 2021 3 = "2021-3".
Proof. reflexivity. Qed.

(** A response without [immunization_over_time]: the first two charts are
    drawn, the exception is caught and logged, the other charts are not
    drawn. *)
Example createCharts_partial :
  PopulationDashboardComponent.createCharts
    {| PopulationDashboardComponent.dashboardData :=
         Some PopulationDashboardComponent.partial;
       PopulationDashboardComponent.charts := [];
       PopulationDashboardComponent.console := [] |}
  = (Ret tt,
     {| PopulationDashboardComponent.dashboardData :=
          Some PopulationDashboardComponent.partial;
        PopulationDashboardComponent.charts :=
          [PopulationDashboardComponent.genderChart
             [ {| PopulationDashboardComponent.gender := "female";
                  PopulationDashboardComponent.patient_count := 7 |};
               {| PopulationDashboardComponent.gender := "male";
                  PopulationDashboardComponent.patient_count := 5 |} ]
             [ {| PopulationDashboardComponent.gender := "female";
                  PopulationDashboardComponent.patient_count := 7 |};
               {| PopulationDashboardComponent.gender := "male";
                  PopulationDashboardComponent.patient_count := 5 |} ];
           PopulationDashboardComponent.conditionsCategoryChart
             [ {| PopulationDashboardComponent.code_text := "Hypertension";
                  PopulationDashboardComponent.condition_count := 4 |};
               {| PopulationDashboardComponent.code_text := "Asthma";
                  PopulationDashboardComponent.condition_count := 2 |} ]
             [ {| PopulationDashboardComponent.code_text := "Hypertension";
                  PopulationDashboardComponent.condition_count := 4 |};
               {| PopulationDashboardComponent.code_text := "Asthma";
                  PopulationDashboardComponent.condition_count := 2 |} ]];
        PopulationDashboardComponent.console := ["Failed to create chart:"] |}).
Proof. reflexivity. Qed.

(** C2. When the dashboard response holds its six fields, [createCharts]
    draws exactly six charts and catches nothing: the gender distribution
    from [patients_by_gender], the conditions by category from
    [conditions_by_category], the immunization time series from
    [immunization_over_time], the encounter time series from
    [encounters_over_time], the medication status distribution from
    [medication_status_distribution] and the top conditions from
    [top_conditions]; each chart has one label and one value per row of
    its field, and the labels of the two time series are [year-month]. *)
Theorem createCharts_aggregates
    (s : PopulationDashboardComponent.t) (d : PopulationDashboardComponent.DashboardData)
    g cc im en ms tc :
  PopulationDashboardComponent.dashboardData s = Some d ->
  PopulationDashboardComponent.patients_by_gender d = Some g ->
  PopulationDashboardComponent.conditions_by_category d = Some cc ->
  PopulationDashboardComponent.immunization_over_time d = Some im ->
  PopulationDashboardComponent.encounters_over_time d = Some en ->
  PopulationDashboardComponent.medication_status_distribution d = Some ms ->
  PopulationDashboardComponent.top_conditions d = Some tc ->
  exists drawn,
    PopulationDashboardComponent.createCharts s
    = (Ret tt,
       {| PopulationDashboardComponent.dashboardData := Some d;
          PopulationDashboardComponent.charts :=
            PopulationDashboardComponent.charts s ++ drawn;
          PopulationDashboardComponent.console :=
            PopulationDashboardComponent.console s |})
    /\ map (fun c =>
              (PopulationDashboardComponent.canvas c,
               PopulationDashboardComponent.labels c,
               PopulationDashboardComponent.data
                 (PopulationDashboardComponent.dataset c)))
           drawn
       = [("genderChart",
           map PopulationDashboardComponent.gender g,
           map PopulationDashboardComponent.patient_count g);
          ("conditionsCategoryChart",
           map PopulationDashboardComponent.code_text cc,
           map PopulationDashboardComponent.condition_count cc);
          ("immunizationChart",
           map (fun b => Js.toStringZ (PopulationDashboardComponent.i_year b)
                         +:+ "-" +:+
                         Js.toStringZ (PopulationDashboardComponent.i_month b)) im,
           map PopulationDashboardComponent.immunization_count im);
          ("encounterChart",
           map (fun b => Js.toStringZ (PopulationDashboardComponent.e_year b)
                         +:+ "-" +:+
                         Js.toStringZ (PopulationDashboardComponent.e_month b)) en,
           map PopulationDashboardComponent.encounter_count en);
          ("medicationStatusChart",
           map PopulationDashboardComponent.status ms,
           map PopulationDashboardComponent.medication_count ms);
          ("topConditionsChart",
           map PopulationDashboardComponent.code_text tc,
           map PopulationDashboardComponent.condition_count tc)].
Proof.
  intros Hd Hg Hcc Him Hen Hms Htc.
  eexists. split.
  - apply (createCharts_run s d g cc im en ms tc); assumption.
  - reflexivity.
Qed.

(** The sample response, drawn on an empty page. *)
Lemma createCharts_aggregates_witness :
  exists drawn,
    PopulationDashboardComponent.createCharts PopulationDashboardComponent.loaded
    = (Ret tt,
       {| PopulationDashboardComponent.dashboardData :=
            Some PopulationDashboardComponent.sample;
          PopulationDashboardComponent.charts := [] ++ drawn;
          PopulationDashboardComponent.console := [] |})
    /\ map (fun c =>
              (PopulationDashboardComponent.canvas c,
               PopulationDashboardComponent.labels c,
               PopulationDashboardComponent.data
                 (PopulationDashboardComponent.dataset c)))
           drawn
       = [("genderChart", ["female"; "male"], [7; 5]%Z);
          ("conditionsCategoryChart", ["Hypertension"; "Asthma"], [4; 2]%Z);
          ("immunizationChart", ["2020-11"; "2021-2"], [3; 9]%Z);
          ("encounterChart", ["2019-12"; "2020-1"], [14; 6]%Z);
          ("medicationStatusChart", ["active"; "stopped"], [8; 1]%Z);
          ("topConditionsChart", ["Hypertension"; "Asthma"], [4; 2]%Z)].
Proof.
  exact (createCharts_aggregates PopulationDashboardComponent.loaded
           PopulationDashboardComponent.sample _ _ _ _ _ _
           eq_refl eq_refl eq_refl eq_refl eq_refl eq_refl eq_refl).
Defined.

(** ** Tables *)

Section TableFacts.

Context {K V D : Type} `{EqDecision K}.

Implicit Types (t : Table K V D) (k : K) (v : V).

Lemma keys_upsert (d0 : D) k v t :
  keys (upsert d0 k v t) = if decide (k ∈ keys t) then keys t else keys t ++ [k].
Proof.
  induction t as [| [k' [v' d]] t IH]; cbn.
  - rewrite decide_False; [reflexivity | apply not_elem_of_nil].
  - destruct (decide (k' = k)) as [-> | Hne]; cbn.
    + rewrite decide_True; [reflexivity | apply list_elem_of_here].
    + fold (keys t). fold (keys (upsert d0 k v t)). rewrite IH.
      destruct (decide (k ∈ keys t)) as [Hin | Hin].
      * rewrite decide_True; [reflexivity | apply list_elem_of_further, Hin].
      * rewrite decide_False; [reflexivity |].
        intros Hc. apply elem_of_cons in Hc as [-> | Hc]; [congruence | auto].
Qed.

Lemma elem_of_keys_upsert (d0 : D) k v t k' :
  k' ∈ keys (upsert d0 k v t) <-> k' ∈ keys t \/ k' = k.
Proof.
  rewrite keys_upsert. destruct (decide (k ∈ keys t)) as [Hin | Hin].
  - split; [auto |]. intros [? | ->]; assumption.
  - rewrite elem_of_app, list_elem_of_singleton. reflexivity.
Qed.

Lemma load_cons (d0 : D) k v (ws : list (K * V)) t :
  load d0 ((k, v) :: ws) t = load d0 ws (upsert d0 k v t).
Proof. reflexivity. Qed.

Lemma elem_of_keys_load (d0 : D) (ws : list (K * V)) t k :
  k ∈ keys (load d0 ws t) <-> k ∈ keys t \/ k ∈ map fst ws.
Proof.
  revert t. induction ws as [| [k' v'] ws IH]; intros t.
  - cbn. rewrite elem_of_nil. tauto.
  - rewrite load_cons, IH, elem_of_keys_upsert. cbn [map fst].
    rewrite elem_of_cons. tauto.
Qed.

(** An upsert never makes a second row under a key. *)
Lemma NoDup_upsert (d0 : D) k v t : NoDup (keys t) -> NoDup (keys (upsert d0 k v t)).
Proof.
  intros Hnd. rewrite keys_upsert. destruct (decide (k ∈ keys t)) as [Hin | Hin].
  - exact Hnd.
  - apply NoDup_app. split; [exact Hnd |]. split.
    + intros x Hx Hk. apply list_elem_of_singleton in Hk as ->. auto.
    + apply NoDup_singleton.
Qed.

Lemma NoDup_load (d0 : D) (ws : list (K * V)) t : NoDup (keys t) -> NoDup (keys (load d0 ws t)).
Proof.
  revert t. induction ws as [| [k v] ws IH]; intros t Hnd; [exact Hnd |].
  rewrite load_cons. apply IH, NoDup_upsert, Hnd.
Qed.

(** Last write wins: of two writes under one key only the second shows. *)
Lemma upsert_absorb (d0 : D) k v1 v2 t :
  upsert d0 k v2 (upsert d0 k v1 t) = upsert d0 k v2 t.
Proof.
  induction t as [| [k' [v' d]] t IH]; cbn.
  - rewrite decide_True by reflexivity. reflexivity.
  - destruct (decide (k' = k)) as [-> | Hne]; cbn.
    + rewrite decide_True by reflexivity. reflexivity.
    + rewrite decide_False by assumption. rewrite IH. reflexivity.
Qed.

(** Writes under two keys commute once one of the keys has its row. *)
Lemma upsert_comm (d0 : D) k1 v1 k2 v2 t :
  k1 <> k2 -> k1 ∈ keys t ->
  upsert d0 k1 v1 (upsert d0 k2 v2 t) = upsert d0 k2 v2 (upsert d0 k1 v1 t).
Proof.
  intros Hne. induction t as [| [k' [v' d]] t IH]; cbn; intros Hin.
  - apply elem_of_nil in Hin. destruct Hin.
  - destruct (decide (k' = k2)) as [E2 | H2], (decide (k' = k1)) as [E1 | H1]; cbn;
      repeat case_decide; try congruence.
    f_equal. apply IH.
    apply elem_of_cons in Hin as [-> | Hin]; [congruence | exact Hin].
Qed.

(** A write under a key that the batch writes again is overwritten. *)
Lemma load_overwrites (d0 : D) (ws : list (K * V)) k v t :
  k ∈ map fst ws -> k ∈ keys t ->
  load d0 ws (upsert d0 k v t) = load d0 ws t.
Proof.
  revert t. induction ws as [| [k' v'] ws IH]; intros t Hw Ht.
  - apply elem_of_nil in Hw. destruct Hw.
  - rewrite !load_cons. destruct (decide (k' = k)) as [-> | Hne].
    + rewrite upsert_absorb. reflexivity.
    + rewrite <- (upsert_comm d0 k v k' v' t) by auto.
      apply IH.
      * cbn [map fst] in Hw.
        apply elem_of_cons in Hw as [-> | Hw]; [congruence | exact Hw].
      * apply elem_of_keys_upsert. auto.
Qed.

(** A write under a key that the batch leaves alone can be done last. *)
Lemma load_passes (d0 : D) (ws : list (K * V)) k v t :
  k ∉ map fst ws -> k ∈ keys t ->
  load d0 ws (upsert d0 k v t) = upsert d0 k v (load d0 ws t).
Proof.
  revert t. induction ws as [| [k' v'] ws IH]; intros t Hw Ht.
  - reflexivity.
  - cbn [map fst] in Hw. apply not_elem_of_cons in Hw as [Hne Hw].
    rewrite !load_cons.
    rewrite <- (upsert_comm d0 k v k' v' t) by auto.
    apply IH; [exact Hw |]. apply elem_of_keys_upsert. auto.
Qed.

(** Loading the same writes a second time changes nothing. *)
Lemma load_idempotent (d0 : D) (ws : list (K * V)) t :
  load d0 ws (load d0 ws t) = load d0 ws t.
Proof.
  revert t. induction ws as [| [k v] ws IH]; intros t; [reflexivity |].
  rewrite (load_cons d0 k v ws t).
  set (u := upsert d0 k v t).
  assert (Hu : k ∈ keys u) by (apply elem_of_keys_upsert; auto).
  rewrite load_cons.
  destruct (decide (k ∈ map fst ws)) as [Hin | Hout].
  - rewrite load_overwrites; [apply IH | exact Hin |].
    apply elem_of_keys_load. auto.
  - rewrite load_passes; [| exact Hout | apply elem_of_keys_load; auto].
    rewrite IH. rewrite <- load_passes by assumption.
    unfold u. rewrite upsert_absorb. reflexivity.
Qed.

Lemma lookupRow_upsert_eq (d0 : D) k v t :
  exists d, lookupRow k (upsert d0 k v t) = Some (v, d).
Proof.
  induction t as [| [k' [v' d]] t IH]; cbn.
  - exists d0. unfold lookupRow. cbn. rewrite bool_decide_eq_true_2 by reflexivity.
    reflexivity.
  - destruct (decide (k' = k)) as [-> | Hne].
    + exists d. unfold lookupRow. cbn.
      rewrite bool_decide_eq_true_2 by reflexivity. reflexivity.
    + destruct IH as [d' IH]. exists d'. unfold lookupRow in *. cbn.
      rewrite bool_decide_eq_false_2 by assumption. exact IH.
Qed.

Lemma lookupRow_upsert_ne (d0 : D) k k' v t :
  k' <> k -> lookupRow k (upsert d0 k' v t) = lookupRow k t.
Proof.
  intros Hne. induction t as [| [k'' [v'' d]] t IH]; cbn.
  - unfold lookupRow. cbn. rewrite bool_decide_eq_false_2 by assumption.
    reflexivity.
  - destruct (decide (k'' = k')) as [-> | Hne'].
    + unfold lookupRow. cbn. rewrite !bool_decide_eq_false_2 by assumption.
      reflexivity.
    + unfold lookupRow in *. cbn. case_bool_decide; [reflexivity | exact IH].
Qed.

(** A key the batch writes once holds, after the load, what was written. *)
Lemma lookupRow_load (d0 : D) (ws : list (K * V)) k v t :
  NoDup (map fst ws) -> (k, v) ∈ ws ->
  exists d, lookupRow k (load d0 ws t) = Some (v, d).
Proof.
  revert t. induction ws as [| [k' v'] ws IH]; intros t Hnd Hin.
  - apply elem_of_nil in Hin. destruct Hin.
  - cbn [map fst] in Hnd. apply NoDup_cons in Hnd as [Hk' Hnd].
    rewrite load_cons.
    apply elem_of_cons in Hin as [Heq | Hin].
    + injection Heq as <- <-.
      destruct (lookupRow_upsert_eq d0 k v t) as [d Hd]. exists d.
      rewrite <- Hd. clear Hd. generalize (upsert d0 k v t).
      clear IH Hnd. induction ws as [| [k'' v''] ws IH]; intros u; [reflexivity |].
      cbn [map fst] in Hk'. apply not_elem_of_cons in Hk' as [Hne Hk'].
      rewrite load_cons, (IH Hk'). apply lookupRow_upsert_ne. congruence.
    + apply IH; assumption.
Qed.

(** Writes under fresh, distinct keys each add a row. *)
Lemma length_load_fresh (d0 : D) (ws : list (K * V)) t :
  NoDup (map fst ws) -> (forall k, k ∈ map fst ws -> k ∉ keys t) ->
  length (load d0 ws t) = length t + length ws.
Proof.
  revert t. induction ws as [| [k v] ws IH]; intros t Hnd Hfresh.
  - cbn. lia.
  - cbn [map fst] in Hnd, Hfresh. apply NoDup_cons in Hnd as [Hk Hnd].
    rewrite load_cons, IH; [| exact Hnd |].
    + assert (Hlen : length (upsert d0 k v t) = length (keys (upsert d0 k v t)))
        by (unfold keys; rewrite length_map; reflexivity).
      rewrite Hlen, keys_upsert, decide_False by (apply Hfresh; left).
      rewrite length_app. unfold keys. rewrite length_map. cbn. lia.
    + intros k' Hk' Hc. apply elem_of_keys_upsert in Hc as [Hc | ->].
      * apply (Hfresh k'); [right; exact Hk' | exact Hc].
      * contradiction.
Qed.

End TableFacts.

(** ** The ingestion engine *)

Section EngineFacts.

Import Ingestion.

Variable mapFields : ResourceType -> Resource -> Fields.

Lemma readAll_app (a b : list Source) :
  readAll (a ++ b)
  = (fst (readAll a) ++ fst (readAll b), snd (readAll a) ++ snd (readAll b)).
Proof.
  induction a as [| src a IH]; cbn.
  - destruct (readAll b); reflexivity.
  - rewrite IH. destruct (readAll a) as [da ea], (readAll b) as [db eb]. cbn.
    destruct (decode src); cbn; [rewrite app_assoc |]; reflexivity.
Qed.

(** The reader reports one [DecodeError] per malformed source, and nothing
    else. *)
Lemma readAll_errors (batch : list Source) :
  snd (readAll batch)
  = omap (fun src => match src with Malformed n => Some (DecodeError n) | _ => None end)
      batch.
Proof.
  induction batch as [| src batch IH]; [reflexivity |]. cbn.
  destruct (readAll batch) as [docs errs]. cbn in IH.
  destruct src; cbn; rewrite IH; reflexivity.
Qed.

Lemma readAll_decodeErrors (batch : list Source) :
  List.filter isDecodeError (snd (readAll batch)) = snd (readAll batch).
Proof.
  induction batch as [| src batch IH]; [reflexivity |]. cbn.
  destruct (readAll batch) as [docs errs]. cbn in IH.
  destruct src; cbn; rewrite ?IH; reflexivity.
Qed.

Lemma transformAll_no_decodeErrors (docs : list (string * Resource)) :
  List.filter isDecodeError (snd (transformAll mapFields docs)) = [].
Proof.
  induction docs as [| [source r] docs IH]; [reflexivity |]. cbn.
  destruct (transformAll mapFields docs) as [ps errs]. cbn in IH.
  unfold transform.
  destruct (resourceType r) as [dsc |]; cbn; [| exact IH].
  destruct (classify dsc) as [ty |]; cbn; [| exact IH].
  destruct (id r); cbn; [| exact IH].
  destruct ty, (patientRef r); cbn; exact IH.
Qed.

Lemma pass2_no_decodeErrors handles stored (ps : list Pending) :
  List.filter isDecodeError (snd (pass2 handles stored ps)) = [].
Proof.
  unfold pass2. cbn [snd].
  induction ps as [| p ps IH]; [reflexivity |]. cbn [map concat].
  rewrite List.filter_app, IH, app_nil_r. unfold resolve.
  destruct (resolveRef handles stored Patient (toPatient p)) as [pat [|]],
           (resolveRef handles stored Encounter (toEncounter p)) as [enc [|]];
    reflexivity.
Qed.

Lemma map_fst_pass2 handles stored (ps : list Pending) :
  map fst (fst (pass2 handles stored ps)) = map key ps.
Proof.
  unfold pass2. cbn [fst]. rewrite map_map. apply map_ext. intros p.
  unfold resolve.
  destruct (resolveRef handles stored Patient (toPatient p)),
           (resolveRef handles stored Encounter (toEncounter p)); reflexivity.
Qed.

Lemma elem_of_record (ps : list Pending) (handles : list (Key * nat)) (k : Key) :
  k ∈ map fst (record ps handles) <-> k ∈ map fst handles \/ k ∈ map key ps.
Proof.
  revert handles. induction ps as [| p ps IH]; intros handles; cbn [record map].
  - rewrite elem_of_nil. tauto.
  - rewrite IH, elem_of_cons. case_bool_decide as Hin.
    + split; [tauto |]. intros [? | [-> | ?]]; auto.
    + rewrite map_app, elem_of_app. cbn. rewrite list_elem_of_singleton. tauto.
Qed.

(** Resolution looks only at which keys are known, in the batch or in the
    store. *)
Lemma pass2_ext handles stored stored' (ps : list Pending) :
  (forall k, k ∈ map fst handles \/ k ∈ stored <-> k ∈ map fst handles \/ k ∈ stored') ->
  pass2 handles stored ps = pass2 handles stored' ps.
Proof.
  intros Hk.
  assert (Hr : forall target, resolves handles stored target = resolves handles stored' target).
  { intros target. unfold resolves. specialize (Hk target).
    repeat case_bool_decide; cbn; try reflexivity; exfalso; tauto. }
  assert (Hp : forall p, resolve handles stored p = resolve handles stored' p).
  { intros p. unfold resolve, resolveRef.
    destruct (toPatient p), (toEncounter p); rewrite ?Hr; reflexivity. }
  unfold pass2. f_equal.
  - apply map_ext. intros p. rewrite Hp. reflexivity.
  - f_equal. apply map_ext. intros p. rewrite Hp. reflexivity.
Qed.

Lemma map_fst_writesOf (batch : list Source) (stored : list Key) :
  map fst (writesOf mapFields batch stored) = map key (pendingOf mapFields batch).
Proof. unfold writesOf. apply map_fst_pass2. Qed.

(** Once a batch is loaded, resolving it against the store gives the same
    writes again. *)
Lemma writesOf_loaded (batch : list Source) (t : Table Key RowValue Derived) :
  writesOf mapFields batch
    (keys (load [] (writesOf mapFields batch (keys t)) t))
  = writesOf mapFields batch (keys t).
Proof.
  unfold writesOf at 1 3. f_equal. apply pass2_ext. intros k.
  rewrite elem_of_keys_load, map_fst_writesOf, elem_of_record. tauto.
Qed.

Lemma ingest_committed (batch : list Source) (s : Store) :
  fst (ingest mapFields true batch s)
  = {| rows := load [] (writesOf mapFields batch (keys (rows s))) (rows s);
       summaries :=
         refresh (load [] (writesOf mapFields batch (keys (rows s))) (rows s))
           (touched (writesOf mapFields batch (keys (rows s)))) (summaries s) |}.
Proof.
  unfold ingest, writesOf, pendingOf.
  destruct (readAll batch) as [docs de]. cbn [fst].
  destruct (transformAll mapFields docs) as [pending se]. cbn [fst].
  destruct (pass2 _ _ _) as [writes warnings]. reflexivity.
Qed.

Lemma ingest_rolled_back (batch : list Source) (s : Store) :
  fst (ingest mapFields false batch s) = s.
Proof.
  unfold ingest.
  destruct (readAll batch) as [docs de].
  destruct (transformAll mapFields docs) as [pending se].
  destruct (pass2 _ _ _) as [writes warnings]. reflexivity.
Qed.

Lemma ingest_errors (persists : bool) (batch : list Source) (s : Store) :
  List.filter isDecodeError (errors (snd (ingest mapFields persists batch s)))
  = snd (readAll batch).
Proof.
  unfold ingest.
  pose proof (readAll_decodeErrors batch) as Hde.
  destruct (readAll batch) as [docs de]. cbn [snd] in *.
  pose proof (transformAll_no_decodeErrors docs) as Hse.
  destruct (transformAll mapFields docs) as [pending se]. cbn [snd] in Hse.
  pose proof (pass2_no_decodeErrors
                (record (pass1 pending) []) (keys (rows s)) (pass1 pending)) as Hw.
  destruct (pass2 _ _ _) as [writes warnings]. cbn [snd] in Hw.
  destruct persists; cbn [snd errors];
    rewrite !List.filter_app, Hde, Hse, Hw, ?app_nil_r; reflexivity.
Qed.

(** Second ingestion of a batch: the store is the one the first left. *)
Lemma ingest_twice (persists : bool) (batch : list Source) (s : Store) :
  fst (ingest mapFields persists batch (fst (ingest mapFields true batch s)))
  = fst (ingest mapFields true batch s).
Proof.
  destruct persists; [| apply ingest_rolled_back].
  rewrite (ingest_committed batch (fst (ingest mapFields true batch s))).
  rewrite (ingest_committed batch s). cbn [rows summaries].
  rewrite writesOf_loaded, load_idempotent.
  unfold refresh. rewrite load_idempotent. reflexivity.
Qed.

Lemma ingest_NoDup (persists : bool) (batch : list Source) (s : Store) :
  NoDup (keys (rows s)) ->
  NoDup (keys (rows (fst (ingest mapFields persists batch s)))).
Proof.
  intros Hnd. destruct persists.
  - rewrite ingest_committed. cbn [rows]. apply NoDup_load, Hnd.
  - rewrite ingest_rolled_back. exact Hnd.
Qed.

End EngineFacts.

(** C6. For every batch and every store, ingesting the batch a second time
    leaves the store the first ingestion committed exactly as it was: the
    same rows in number and with the same field values, and the same
    summaries; this holds also if the second transaction is refused and
    rolls back. Ingestion never makes a second row under a (type, id) key:
    a store with one row per key has one row per key after each
    ingestion. *)
Theorem ingest_idempotent
    (mapFields : ResourceType -> Ingestion.Resource -> Ingestion.Fields)
    (persists : bool) (batch : list Ingestion.Source) (s : Ingestion.Store) :
  let s1 := fst (Ingestion.ingest mapFields true batch s) in
  let s2 := fst (Ingestion.ingest mapFields persists batch s1) in
  s2 = s1
  /\ length (Ingestion.rows s2) = length (Ingestion.rows s1)
  /\ (NoDup (keys (Ingestion.rows s)) ->
      NoDup (keys (Ingestion.rows s1)) /\ NoDup (keys (Ingestion.rows s2))).
Proof.
  cbn zeta. rewrite ingest_twice. split; [reflexivity |]. split; [reflexivity |].
  intros Hnd. split; apply ingest_NoDup, Hnd.
Qed.

(** The ten sample documents, ingested twice into an empty store. *)
Lemma ingest_idempotent_witness :
  fst (Ingestion.ingest Ingestion.columns true Ingestion.tenDocuments
         (fst (Ingestion.ingest Ingestion.columns true Ingestion.tenDocuments
                 Ingestion.emptyStore)))
  = fst (Ingestion.ingest Ingestion.columns true Ingestion.tenDocuments
           Ingestion.emptyStore)
  /\ NoDup (keys (Ingestion.rows
                    (fst (Ingestion.ingest Ingestion.columns true
                            Ingestion.tenDocuments Ingestion.emptyStore)))).
Proof.
  split.
  - exact (proj1 (ingest_idempotent Ingestion.columns true Ingestion.tenDocuments
                    Ingestion.emptyStore)).
  - refine (proj1 (proj2 (proj2 (ingest_idempotent Ingestion.columns true
                                   Ingestion.tenDocuments Ingestion.emptyStore)) _)).
    cbn. apply NoDup_nil_2.
Defined.

Section FaultIsolation.

Import Ingestion.

Variable mapFields : ResourceType -> Resource -> Fields.

Lemma readAll_skips_malformed (before after : list Source) (name : string) :
  fst (readAll (before ++ Malformed name :: after)) = fst (readAll (before ++ after))
  /\ snd (readAll (before ++ Malformed name :: after))
     = snd (readAll before) ++ DecodeError name :: snd (readAll after).
Proof.
  rewrite !readAll_app. cbn [fst snd readAll decode].
  destruct (readAll after) as [docs errs]. split; reflexivity.
Qed.

Lemma transform_valid (r : Resource) :
  validResource r -> exists p, forall source, transform mapFields (source, r) = inl p.
Proof.
  unfold validResource, transform.
  destruct (resourceType r) as [dsc |]; [| tauto].
  destruct (classify dsc) as [[] |]; try tauto;
    try (intros [[i ->] [pr ->]]; eexists; intros; reflexivity).
  intros [i ->]. eexists. intros. reflexivity.
Qed.

Lemma readAll_valid (l : list Source) :
  Forall valid l ->
  snd (readAll l) = []
  /\ length (fst (readAll l)) = length l
  /\ Forall (fun doc => exists p, transform mapFields doc = inl p) (fst (readAll l)).
Proof.
  induction 1 as [| src l Hsrc _ (IHe & IHl & IHd)]; cbn.
  - split; [reflexivity |]. split; [reflexivity | constructor].
  - destruct (readAll l) as [docs errs]. cbn in *.
    destruct Hsrc as [name r Hr]. destruct (transform_valid r Hr) as [p Hp].
    cbn. subst errs.
    split; [reflexivity |]. split; [rewrite IHl; reflexivity |].
    constructor; [exists p; apply Hp | exact IHd].
Qed.

Lemma transformAll_valid (docs : list (string * Resource)) :
  Forall (fun doc => exists p, transform mapFields doc = inl p) docs ->
  snd (transformAll mapFields docs) = []
  /\ length (fst (transformAll mapFields docs)) = length docs.
Proof.
  induction 1 as [| doc docs [p Hp] _ [IHe IHl]]; cbn; [split; reflexivity |].
  destruct (transformAll mapFields docs) as [ps errs]. cbn in *.
  rewrite Hp. cbn. subst errs. split; [reflexivity | rewrite IHl; reflexivity].
Qed.

Lemma In_readAll (batch : list Source) (name : string) (r : Resource) :
  In (Single name r) batch -> In (name, r) (fst (readAll batch)).
Proof.
  induction batch as [| src batch IH]; cbn; [tauto |].
  destruct (readAll batch) as [docs errs]. cbn in IH.
  intros [-> | Hin].
  - cbn. left. reflexivity.
  - destruct (decode src); cbn; [apply in_or_app; right |]; apply IH, Hin.
Qed.

Lemma In_transformAll (docs : list (string * Resource)) doc (p : Pending) :
  In doc docs -> transform mapFields doc = inl p ->
  In p (fst (transformAll mapFields docs)).
Proof.
  induction docs as [| doc' docs IH]; cbn; [tauto |].
  destruct (transformAll mapFields docs) as [ps errs]. cbn in IH.
  intros [-> | Hin] Hp.
  - rewrite Hp. left. reflexivity.
  - destruct (transform mapFields doc'); cbn; [right |]; apply IH; assumption.
Qed.

Lemma In_pass1 (ps : list Pending) (p : Pending) : In p ps -> In p (pass1 ps).
Proof.
  intros Hin. unfold pass1. apply in_or_app.
  destruct (isPatient p) eqn:E; [left | right]; apply filter_In; rewrite ?E; auto.
Qed.

Lemma length_pass1 (ps : list Pending) : length (pass1 ps) = length ps.
Proof.
  unfold pass1. rewrite length_app.
  induction ps as [| p ps IH]; cbn; [reflexivity |].
  destruct (isPatient p); cbn; lia.
Qed.

Lemma In_pendingOf (batch : list Source) name r (p : Pending) :
  In (Single name r) batch -> transform mapFields (name, r) = inl p ->
  In p (pendingOf mapFields batch).
Proof.
  intros Hin Hp. unfold pendingOf. apply In_pass1.
  eapply In_transformAll; [apply In_readAll, Hin | exact Hp].
Qed.

(** What is written for a pending row: its key and its mapped columns. *)
Lemma writesOf_row (batch : list Source) (stored : list Key) (p : Pending) :
  In p (pendingOf mapFields batch) ->
  exists v, (key p, v) ∈ writesOf mapFields batch stored /\ fields v = mapped p.
Proof.
  intros Hin. unfold writesOf, pass2. cbn [fst].
  set (h := record (pendingOf mapFields batch) []).
  exists (snd (fst (resolve h stored p))). split.
  - apply list_elem_of_In, in_map_iff. exists p. split; [| exact Hin].
    unfold resolve.
    destruct (resolveRef h stored Patient (toPatient p)),
             (resolveRef h stored Encounter (toEncounter p)); reflexivity.
  - unfold resolve.
    destruct (resolveRef h stored Patient (toPatient p)),
             (resolveRef h stored Encounter (toEncounter p)); reflexivity.
Qed.

Lemma length_writesOf (batch : list Source) (stored : list Key) :
  length (writesOf mapFields batch stored) = length (pendingOf mapFields batch).
Proof.
  rewrite <- (length_map fst), (map_fst_writesOf mapFields), length_map.
  reflexivity.
Qed.

End FaultIsolation.

(** C7. A batch of one malformed document and nine valid documents, in any
    order: the result reports exactly one [DecodeError], that of the
    malformed document; the store committed is the one the nine valid
    documents alone would give; it holds a row under the key of each of
    them; when the nine are about nine different resources each row holds
    the mapped fields of its document, and when none of them was stored
    before the store has nine more rows. *)
Theorem fault_isolation
    (mapFields : ResourceType -> Ingestion.Resource -> Ingestion.Fields)
    (before after : list Ingestion.Source) (name : string) (s : Ingestion.Store) :
  Forall Ingestion.valid (before ++ after) ->
  length (before ++ after) = 9 ->
  let batch := before ++ Ingestion.Malformed name :: after in
  let s' := fst (Ingestion.ingest mapFields true batch s) in
  let result := snd (Ingestion.ingest mapFields true batch s) in
  List.filter Ingestion.isDecodeError (Ingestion.errors result)
  = [Ingestion.DecodeError name]
  /\ s' = fst (Ingestion.ingest mapFields true (before ++ after) s)
  /\ length (Ingestion.pendingOf mapFields batch) = 9
  /\ (forall source r p,
         In (Ingestion.Single source r) (before ++ after) ->
         Ingestion.transform mapFields (source, r) = inl p ->
         Ingestion.key p ∈ keys (Ingestion.rows s')
         /\ (NoDup (map Ingestion.key (Ingestion.pendingOf mapFields batch)) ->
             exists v d,
               lookupRow (Ingestion.key p) (Ingestion.rows s') = Some (v, d)
               /\ Ingestion.fields v = Ingestion.mapped p))
  /\ (NoDup (map Ingestion.key (Ingestion.pendingOf mapFields batch)) ->
      (forall p, In p (Ingestion.pendingOf mapFields batch) ->
                 Ingestion.key p ∉ keys (Ingestion.rows s)) ->
      length (Ingestion.rows s') = length (Ingestion.rows s) + 9).
Proof.
  intros Hvalid Hlen. cbn zeta.
  destruct (readAll_skips_malformed before after name) as [Hdocs Herrs].
  assert (Hpending : Ingestion.pendingOf mapFields
                       (before ++ Ingestion.Malformed name :: after)
                     = Ingestion.pendingOf mapFields (before ++ after)).
  { unfold Ingestion.pendingOf. rewrite Hdocs. reflexivity. }
  assert (Hwrites : forall stored,
             Ingestion.writesOf mapFields
               (before ++ Ingestion.Malformed name :: after) stored
             = Ingestion.writesOf mapFields (before ++ after) stored).
  { intros stored. unfold Ingestion.writesOf. rewrite Hpending. reflexivity. }
  destruct (readAll_valid mapFields _ Hvalid) as (He & Hl & Hd).
  destruct (transformAll_valid mapFields _ Hd) as (_ & Hl').
  assert (Hnine : length (Ingestion.pendingOf mapFields (before ++ after)) = 9).
  { unfold Ingestion.pendingOf. rewrite length_pass1, Hl', Hl. exact Hlen. }
  split; [| split; [| split; [| split]]].
  - rewrite ingest_errors, Herrs.
    apply Forall_app in Hvalid as [Hb Ha].
    destruct (readAll_valid mapFields _ Hb) as (-> & _).
    destruct (readAll_valid mapFields _ Ha) as (-> & _). reflexivity.
  - rewrite !ingest_committed, !Hwrites. reflexivity.
  - rewrite Hpending. exact Hnine.
  - intros source r p Hin Hp.
    pose proof (In_pendingOf mapFields _ _ _ _ Hin Hp) as Hp'.
    rewrite ingest_committed, Hwrites, Hpending. cbn [Ingestion.rows].
    destruct (writesOf_row mapFields (before ++ after)
                (keys (Ingestion.rows s)) p Hp') as (v & Hv & Hf).
    split.
    + apply elem_of_keys_load. right.
      rewrite map_fst_writesOf. apply list_elem_of_In, in_map, Hp'.
    + intros Hnd.
      assert (Hnd' : NoDup (map fst (Ingestion.writesOf mapFields (before ++ after)
                                       (keys (Ingestion.rows s)))))
        by (rewrite map_fst_writesOf; exact Hnd).
      destruct (lookupRow_load [] _ (Ingestion.key p) v (Ingestion.rows s) Hnd' Hv)
        as [d Hd'].
      exists v, d. split; [exact Hd' | exact Hf].
  - rewrite Hpending. intros Hnd Hfresh.
    rewrite ingest_committed, Hwrites. cbn [Ingestion.rows].
    rewrite length_load_fresh.
    + rewrite length_writesOf, Hnine. reflexivity.
    + rewrite map_fst_writesOf. exact Hnd.
    + intros k Hk. rewrite map_fst_writesOf in Hk.
      apply list_elem_of_In, in_map_iff in Hk as (p & <- & Hp).
      apply Hfresh, Hp.
Qed.

(** The ten sample documents, the fifth of which does not decode, ingested
    into an empty store. *)
Lemma fault_isolation_witness :
  List.filter Ingestion.isDecodeError
    (Ingestion.errors
       (snd (Ingestion.ingest Ingestion.columns true Ingestion.tenDocuments
               Ingestion.emptyStore)))
  = [Ingestion.DecodeError "broken.json"]
  /\ length (Ingestion.rows
               (fst (Ingestion.ingest Ingestion.columns true Ingestion.tenDocuments
                       Ingestion.emptyStore)))
     = 0 + 9.
Proof.
  assert (Hvalid : Forall Ingestion.valid
                     (firstn 4 Ingestion.nineValid ++ skipn 4 Ingestion.nineValid)).
  { cbn. repeat constructor; cbn; eauto. }
  pose proof (fault_isolation Ingestion.columns
                (firstn 4 Ingestion.nineValid) (skipn 4 Ingestion.nineValid)
                "broken.json" Ingestion.emptyStore Hvalid eq_refl) as H.
  cbn zeta in H. destruct H as (H1 & _ & _ & _ & H5).
  split; [exact H1 |]. apply H5.
  - refine (bool_decide_unpack _ _). vm_compute. exact I.
  - intros p _. cbn. apply not_elem_of_nil.
Defined.

Example ingest_sample_rows :
  keys (Ingestion.rows
          (fst (Ingestion.ingest Ingestion.columns true Ingestion.tenDocuments
                  Ingestion.emptyStore)))
  = [(Patient, "p1"); (Patient, "p3"); (Condition, "c1"); (Encounter, "e1");
     (Observation, "o1"); (Immunization, "i1"); (CarePlan, "k1");
     (MedicationRequest, "m1"); (Procedure, "r1")].
Proof. vm_compute. reflexivity. Qed.

(** * Further properties of the front end *)

(** ** The service *)

(** X1. No HTTP-issuing method of the service writes to the service: after
    the call, whether it returned an observable or threw, [baseUrl] and
    [mysqlUrl] are what they were. *)
Theorem call_leaves_service (m : MedicalRecordService.Method) (s : MedicalRecordService.t) :
  snd (MedicalRecordService.call m s) = s.
Proof.
  destruct (string_dec (MedicalRecordService.mysqlUrl s) "") as [H | H].
  - rewrite (call_empty m s H). reflexivity.
  - destruct (call_set m s H) as (r & -> & _). reflexivity.
Qed.

(** X2. [getPatientEncounters] and [getUserEncounters] are one method under
    two names: on every state and patient id they return the same
    observable, or both throw. [getPatientEMR] and [searchPatientsByName]
    send to the same URL, and their requests always differ, by the name of
    the parameter, even when the id and the name are the same string. *)
Theorem twin_methods (s : MedicalRecordService.t) (patientId name : string) :
  MedicalRecordService.getPatientEncounters patientId s
  = MedicalRecordService.getUserEncounters patientId s
  /\ (MedicalRecordService.mysqlUrl s <> "" ->
      exists r1 r2,
        MedicalRecordService.getPatientEMR patientId s = (Ret r1, s)
        /\ MedicalRecordService.searchPatientsByName name s = (Ret r2, s)
        /\ Http.url r1 = Http.url r2
        /\ r1 <> r2).
Proof.
  split; [reflexivity |]. intros H.
  unfold MedicalRecordService.getPatientEMR, MedicalRecordService.searchPatientsByName.
  rewrite !(getWith_set _ _ _ s H). eexists. eexists.
  split; [reflexivity |]. split; [reflexivity |]. split; [reflexivity |].
  cbn. intros E. discriminate E.
Qed.

Lemma twin_methods_witness :
  exists r1 r2,
    MedicalRecordService.getPatientEMR "ann" MedicalRecordService.constructor
    = (Ret r1, MedicalRecordService.constructor)
    /\ MedicalRecordService.searchPatientsByName "ann" MedicalRecordService.constructor
       = (Ret r2, MedicalRecordService.constructor)
    /\ Http.url r1 = Http.url r2
    /\ r1 <> r2.
Proof.
  refine (proj2 (twin_methods MedicalRecordService.constructor "ann" "ann") _).
  cbn. discriminate.
Defined.

Lemma run_cons {K} (op : Op K) (ops : list (Op K)) (w : World K) :
  run (op :: ops) w = run ops (step w op).
Proof. reflexivity. Qed.

(** X3. In every run of the application, from every state, the requests
    that the run adds to those in flight are, in order, one for each
    request made while the stored URL was not empty, and each carries the
    URL that was stored when it was made: a [setMySqlUrl] changes the
    requests made after it and none of those made before. *)
Theorem requests_carry_current_url (K : Type) (ops : list (Op K)) (w : World K) :
  exists new,
    inflight (run ops w) = inflight w ++ new
    /\ Forall2 carriesMySqlUrl (map fst new)
         (urlsIssued (MedicalRecordService.mysqlUrl (service w)) ops).
Proof.
  revert w. induction ops as [| op ops IH]; intros w.
  - exists []. cbn. rewrite app_nil_r. split; [reflexivity | constructor].
  - rewrite run_cons. destruct op as [u | m k]; cbn [step urlsIssued].
    + destruct (IH (snd (onService (MedicalRecordService.setMySqlUrl u) w)))
        as (new & Hnew & Hall).
      exists new. split; [exact Hnew | exact Hall].
    + destruct (string_dec (MedicalRecordService.mysqlUrl (service w)) "") as [H | H].
      * rewrite (request_empty m k w H). cbn [snd]. rewrite H. cbn [Js.truthy].
        rewrite <- H. apply IH.
      * destruct (request_set m k w H) as (r & -> & Hr). cbn [snd].
        destruct (IH {| service := service w; inflight := inflight w ++ [(r, k)] |})
          as (new & Hnew & Hall).
        cbn [service inflight] in Hnew, Hall.
        exists ((r, k) :: new). split.
        -- rewrite Hnew, <- app_assoc. reflexivity.
        -- destruct (MedicalRecordService.mysqlUrl (service w)) eqn:E;
             [congruence |].
           cbn [Js.truthy map fst]. constructor; [exact Hr | exact Hall].
Qed.

(** ** The upload component *)

Section UploadMore.

Import UploadComponent.

Lemma guard_spec (c : t) :
  Js.truthy_obj (selectedFiles c) || (0 <? length (directoryFiles c))%nat = true
  <-> selectedFiles c <> None \/ directoryFiles c <> [].
Proof.
  destruct (selectedFiles c) as [sel |], (directoryFiles c) as [| f dir]; cbn;
    split; intros H; try reflexivity; try discriminate;
    try (left; discriminate); try (right; discriminate).
  destruct H as [H | H]; congruence.
Qed.

Lemma uploadFiles_else (c : t) (w : World Callback) :
  Js.truthy_obj (selectedFiles c) || (0 <? length (directoryFiles c))%nat = false ->
  uploadFiles (c, w)
  = (Ret tt, (setUploadMessage "Please select files to upload." c, w)).
Proof.
  intros Hg. unfold uploadFiles.
  unfold bind at 1. cbn [onFst gets fst snd].
  unfold bind at 1. cbn [onFst gets fst snd].
  rewrite Hg. unfold onFst, modify. cbn. destruct w; reflexivity.
Qed.

Lemma forEach_push (files : list Http.File) (c : t) :
  forEach files push c
  = (Ret tt,
     {| selectedFiles := selectedFiles c;
        directoryFiles := directoryFiles c ++ files;
        isUploading := isUploading c; uploadMessage := uploadMessage c |}).
Proof.
  revert c. induction files as [| f files IH]; intros c.
  - cbn. rewrite app_nil_r. destruct c; reflexivity.
  - cbn [forEach]. unfold bind. cbn [push modify].
    rewrite IH. cbn. rewrite <- app_assoc. reflexivity.
Qed.

End UploadMore.

(** X4. [uploadFiles] throws exactly when something is selected
    ([selectedFiles] is not null, or there is a directory file) and the
    stored MySQL URL is empty. It has then already raised [isUploading],
    and it has registered no observer, so that neither [next] nor [error]
    will run to lower it; the message and the selection are unchanged. *)
Theorem uploadFiles_throws (c : UploadComponent.t) (w : World UploadComponent.Callback) :
  (threw (UploadComponent.uploadFiles (c, w))
   <-> (UploadComponent.selectedFiles c <> None \/ UploadComponent.directoryFiles c <> [])
       /\ MedicalRecordService.mysqlUrl (service w) = "")
  /\ (threw (UploadComponent.uploadFiles (c, w)) ->
      snd (UploadComponent.uploadFiles (c, w))
      = ({| UploadComponent.selectedFiles := UploadComponent.selectedFiles c;
            UploadComponent.directoryFiles := UploadComponent.directoryFiles c;
            UploadComponent.isUploading := true;
            UploadComponent.uploadMessage := UploadComponent.uploadMessage c |}, w)).
Proof.
  destruct (Js.truthy_obj (UploadComponent.selectedFiles c)
            || (0 <? length (UploadComponent.directoryFiles c))%nat) eqn:Hg.
  - rewrite (uploadFiles_branch c w Hg).
    pose proof (proj1 (guard_spec c) Hg) as Hsel.
    destruct (MedicalRecordService.mysqlUrl (service w)) as [| a u] eqn:E;
      cbn [Js.truthy].
    + split; [| reflexivity]. split; [auto | intros _; exact I].
    + split; [| intros []]. split; [intros [] | intros [_ H]; discriminate].
  - rewrite (uploadFiles_else c w Hg). split; [| intros []].
    split; [intros [] |]. intros [Hsel _].
    apply guard_spec in Hsel. congruence.
Qed.

Lemma uploadFiles_throws_witness :
  snd (UploadComponent.uploadFiles
         (UploadComponent.oneSelected, UploadComponent.urlCleared))
  = ({| UploadComponent.selectedFiles := Some [UploadComponent.file1];
        UploadComponent.directoryFiles := [];
        UploadComponent.isUploading := true;
        UploadComponent.uploadMessage := "" |}, UploadComponent.urlCleared).
Proof.
  refine (proj2 (uploadFiles_throws UploadComponent.oneSelected
                   UploadComponent.urlCleared) _).
  refine (proj2 (proj1 (uploadFiles_throws UploadComponent.oneSelected
                          UploadComponent.urlCleared)) _).
  split; [left; discriminate | reflexivity].
Defined.

(** X5. Whatever the state, [uploadFiles] leaves the selection
    ([selectedFiles], [directoryFiles]) and the service as they are, keeps
    every subscription in flight, and adds at most one: an upload observer
    on a POST to [/upload]. *)
Theorem uploadFiles_frame (c : UploadComponent.t) (w : World UploadComponent.Callback) :
  UploadComponent.selectedFiles (fst (snd (UploadComponent.uploadFiles (c, w))))
  = UploadComponent.selectedFiles c
  /\ UploadComponent.directoryFiles (fst (snd (UploadComponent.uploadFiles (c, w))))
     = UploadComponent.directoryFiles c
  /\ service (snd (snd (UploadComponent.uploadFiles (c, w)))) = service w
  /\ (inflight (snd (snd (UploadComponent.uploadFiles (c, w)))) = inflight w
      \/ exists body,
          inflight (snd (snd (UploadComponent.uploadFiles (c, w))))
          = inflight w
            ++ [(Http.POST (MedicalRecordService.baseUrl (service w) +:+ "/upload") body,
                 UploadComponent.UploadObserver)]).
Proof.
  destruct (Js.truthy_obj (UploadComponent.selectedFiles c)
            || (0 <? length (UploadComponent.directoryFiles c))%nat) eqn:Hg.
  - rewrite (uploadFiles_branch c w Hg).
    destruct (Js.truthy (MedicalRecordService.mysqlUrl (service w))); cbn.
    + repeat split. right. eexists. reflexivity.
    + repeat split. left. reflexivity.
  - rewrite (uploadFiles_else c w Hg). cbn. repeat split. left. reflexivity.
Qed.

(** X6. Neither callback of the upload clears the selection. After an
    upload that was sent and then answered, by [next] or by [error],
    [isUploading] is false again and the same files are still chosen: a
    second [uploadFiles] sends the same request once more. *)
Theorem upload_again (c : UploadComponent.t) (w : World UploadComponent.Callback)
    (answer : M UploadComponent.t unit) :
  UploadComponent.chosen c <> [] ->
  MedicalRecordService.mysqlUrl (service w) <> "" ->
  answer = UploadComponent.next \/ answer = UploadComponent.error ->
  let c1 := fst (snd (UploadComponent.uploadFiles (c, w))) in
  let w1 := snd (snd (UploadComponent.uploadFiles (c, w))) in
  let c2 := snd (answer c1) in
  UploadComponent.isUploading c1 = true
  /\ UploadComponent.isUploading c2 = false
  /\ UploadComponent.chosen c2 = UploadComponent.chosen c
  /\ sent (snd (snd (UploadComponent.uploadFiles (c2, w1))))
     = sent w
       ++ [UploadComponent.uploadRequest c (service w);
           UploadComponent.uploadRequest c (service w)].
Proof.
  intros Hc Hu Ha. cbn zeta.
  rewrite (uploadFiles_branch c w (guard_of_chosen c Hc)).
  destruct (MedicalRecordService.mysqlUrl (service w)) as [| a u] eqn:E;
    [congruence |].
  cbn [Js.truthy fst snd].
  set (c2 := snd (answer (UploadComponent.setIsUploading true c))).
  assert (Hc2 : UploadComponent.selectedFiles c2 = UploadComponent.selectedFiles c
                /\ UploadComponent.directoryFiles c2 = UploadComponent.directoryFiles c
                /\ UploadComponent.isUploading c2 = false).
  { unfold c2. destruct Ha as [-> | ->]; cbn; repeat split. }
  destruct Hc2 as (Hs & Hd & Hi).
  assert (Hch : UploadComponent.chosen c2 = UploadComponent.chosen c).
  { unfold UploadComponent.chosen. rewrite Hs, Hd. reflexivity. }
  split; [reflexivity |]. split; [exact Hi |]. split; [exact Hch |].
  rewrite uploadFiles_branch by (apply guard_of_chosen; rewrite Hch; exact Hc).
  cbn [service inflight]. rewrite E. cbn [Js.truthy snd].
  unfold sent. cbn [inflight]. rewrite !map_app. cbn [map fst].
  unfold UploadComponent.uploadRequest. rewrite Hch, E, <- app_assoc. reflexivity.
Qed.

Lemma upload_again_witness :
  sent (snd (snd (UploadComponent.uploadFiles
                    (snd (UploadComponent.next
                            (fst (snd (UploadComponent.uploadFiles
                                         (UploadComponent.oneOfEach, boot))))),
                     snd (snd (UploadComponent.uploadFiles
                                 (UploadComponent.oneOfEach, boot)))))))
  = sent (K := UploadComponent.Callback) boot
    ++ [UploadComponent.uploadRequest UploadComponent.oneOfEach
          MedicalRecordService.constructor;
        UploadComponent.uploadRequest UploadComponent.oneOfEach
          MedicalRecordService.constructor].
Proof.
  refine (proj2 (proj2 (proj2 (upload_again UploadComponent.oneOfEach boot
                                 UploadComponent.next _ _ _))));
    [cbn; discriminate | cbn; discriminate | left; reflexivity].
Defined.

(** X7. [onDirectorySelected] never throws and replaces the directory
    files by exactly the files of the event, in their order, whatever was
    there before; the selected files, [isUploading] and the message are
    untouched. *)
Theorem onDirectorySelected_replaces (files : list Http.File) (c : UploadComponent.t) :
  UploadComponent.onDirectorySelected files c
  = (Ret tt,
     {| UploadComponent.selectedFiles := UploadComponent.selectedFiles c;
        UploadComponent.directoryFiles := files;
        UploadComponent.isUploading := UploadComponent.isUploading c;
        UploadComponent.uploadMessage := UploadComponent.uploadMessage c |}).
Proof.
  unfold UploadComponent.onDirectorySelected, bind, modify.
  rewrite forEach_push. reflexivity.
Qed.

(** ** The EMR component *)

Section EmrMore.

Import EmrComponent.

Lemma respond_comm (k1 k2 : Callback) (d1 d2 : Json) (c : t) :
  k1 <> k2 -> respond k1 d1 (respond k2 d2 c) = respond k2 d2 (respond k1 d1 c).
Proof. destruct k1, k2; intros H; try congruence; reflexivity. Qed.

Lemma deliver_cons r rs (c : t) :
  deliver (r :: rs) c = deliver rs (respond (fst r) (snd r) c).
Proof. reflexivity. Qed.

Lemma ngOnInit_empty_id (pm : ParamMap) (c : t) (w : World Callback) :
  paramGet "id" pm = Some "" -> ngOnInit pm (c, w) = (Ret tt, (c, w)).
Proof. intros H. unfold ngOnInit. rewrite H. reflexivity. Qed.

End EmrMore.

Lemma assigned_respond (k k' : EmrComponent.Callback) (d : Json) (c : EmrComponent.t) :
  EmrComponent.assigned k (EmrComponent.respond k' d c)
  = if bool_decide (k' = k) then Some d else EmrComponent.assigned k c.
Proof. destruct k, k'; reflexivity. Qed.

Lemma assigned_deliver (k : EmrComponent.Callback)
    (rs : list (EmrComponent.Callback * Json)) (c : EmrComponent.t) :
  EmrComponent.assigned k (EmrComponent.deliver rs c)
  = match EmrComponent.lastFor k rs with
    | Some d => Some d
    | None => EmrComponent.assigned k c
    end.
Proof.
  revert c. induction rs as [| [k' d] rs IH]; intros c; [reflexivity |].
  rewrite deliver_cons, IH. cbn [fst snd EmrComponent.lastFor].
  destruct (EmrComponent.lastFor k rs); [reflexivity |].
  rewrite assigned_respond. destruct (bool_decide (k' = k)); reflexivity.
Qed.

Lemma assigned_ext (c1 c2 : EmrComponent.t) :
  (forall k, EmrComponent.assigned k c1 = EmrComponent.assigned k c2) -> c1 = c2.
Proof.
  intros H. destruct c1, c2.
  pose proof (H EmrComponent.SetPatient) as H1.
  pose proof (H EmrComponent.SetEncounters) as H2.
  pose proof (H EmrComponent.SetObservations) as H3.
  pose proof (H EmrComponent.SetImmunizations) as H4.
  pose proof (H EmrComponent.SetCarePlans) as H5.
  pose proof (H EmrComponent.SetConditions) as H6.
  pose proof (H EmrComponent.SetMedicationRequests) as H7.
  pose proof (H EmrComponent.SetEncounterDetails) as H8.
  cbn in *. congruence.
Qed.

(** X8. Each callback of the EMR view assigns one field: after any
    sequence of responses, each field holds the data of the last response
    given to its callback, or what it held if none was. So two sequences
    of responses that agree, callback by callback, on the last response
    leave the same component, in whatever order the responses to different
    callbacks arrive; but of two different responses to the same callback,
    as two calls of [viewEncounterDetails] bring, the one that arrives last
    stays, and the order matters. *)
Theorem responses_last_wins
    (rs : list (EmrComponent.Callback * Json)) (c : EmrComponent.t) :
  (forall k,
      EmrComponent.assigned k (EmrComponent.deliver rs c)
      = match EmrComponent.lastFor k rs with
        | Some d => Some d
        | None => EmrComponent.assigned k c
        end)
  /\ (forall rs',
        (forall k, EmrComponent.lastFor k rs = EmrComponent.lastFor k rs') ->
        EmrComponent.deliver rs c = EmrComponent.deliver rs' c)
  /\ (forall d1 d2,
        d1 <> d2 ->
        EmrComponent.deliver
          [(EmrComponent.SetEncounterDetails, d1); (EmrComponent.SetEncounterDetails, d2)] c
        <> EmrComponent.deliver
             [(EmrComponent.SetEncounterDetails, d2); (EmrComponent.SetEncounterDetails, d1)] c).
Proof.
  split; [| split].
  - intros k. apply assigned_deliver.
  - intros rs' H. apply assigned_ext. intros k.
    rewrite !assigned_deliver, H. reflexivity.
  - intros d1 d2 Hne E.
    apply (f_equal EmrComponent.encounterDetails) in E. cbn in E. congruence.
Qed.

Lemma responses_last_wins_witness :
  EmrComponent.deliver
    [(EmrComponent.SetEncounterDetails, JStr "e1"); (EmrComponent.SetPatient, JStr "p");
     (EmrComponent.SetEncounterDetails, JStr "e2")]
    EmrComponent.constructor
  = EmrComponent.deliver
      [(EmrComponent.SetEncounterDetails, JStr "e2"); (EmrComponent.SetPatient, JStr "p")]
      EmrComponent.constructor
  /\ EmrComponent.deliver
       [(EmrComponent.SetEncounterDetails, JStr "e1");
        (EmrComponent.SetEncounterDetails, JStr "e2")]
       EmrComponent.constructor
     <> EmrComponent.deliver
          [(EmrComponent.SetEncounterDetails, JStr "e2");
           (EmrComponent.SetEncounterDetails, JStr "e1")]
          EmrComponent.constructor.
Proof.
  split.
  - refine (proj1 (proj2 (responses_last_wins _ EmrComponent.constructor)) _ _).
    intros []; reflexivity.
  - refine (proj2 (proj2 (responses_last_wins [] EmrComponent.constructor)) _ _ _).
    discriminate.
Defined.

(** X9. [ngOnInit] of the EMR view is all or nothing. It never writes to
    the component or to the service, and the requests it sends are either
    none or the seven requests of one patient: it cannot stop half way,
    since the guard that could throw is the same in the seven methods. An
    empty [id] counts as no id: nothing is sent and nothing is thrown, even
    while the stored URL is empty. *)
Theorem ngOnInit_all_or_nothing (pm : EmrComponent.ParamMap) (c : EmrComponent.t)
    (w : World EmrComponent.Callback) :
  fst (snd (EmrComponent.ngOnInit pm (c, w))) = c
  /\ service (snd (snd (EmrComponent.ngOnInit pm (c, w)))) = service w
  /\ (sent (snd (snd (EmrComponent.ngOnInit pm (c, w)))) = sent w
      \/ exists patientId,
          EmrComponent.paramGet "id" pm = Some patientId
          /\ sent (snd (snd (EmrComponent.ngOnInit pm (c, w))))
             = sent w
               ++ EmrComponent.patientFetches (MedicalRecordService.baseUrl (service w))
                    (MedicalRecordService.mysqlUrl (service w)) patientId)
  /\ (EmrComponent.paramGet "id" pm = Some "" ->
      EmrComponent.ngOnInit pm (c, w) = (Ret tt, (c, w))).
Proof.
  assert (Hempty : EmrComponent.paramGet "id" pm = Some "" ->
                   EmrComponent.ngOnInit pm (c, w) = (Ret tt, (c, w)))
    by apply ngOnInit_empty_id.
  cut (fst (snd (EmrComponent.ngOnInit pm (c, w))) = c
       /\ service (snd (snd (EmrComponent.ngOnInit pm (c, w)))) = service w
       /\ (sent (snd (snd (EmrComponent.ngOnInit pm (c, w)))) = sent w
           \/ exists patientId,
               EmrComponent.paramGet "id" pm = Some patientId
               /\ sent (snd (snd (EmrComponent.ngOnInit pm (c, w))))
                  = sent w
                    ++ EmrComponent.patientFetches
                         (MedicalRecordService.baseUrl (service w))
                         (MedicalRecordService.mysqlUrl (service w)) patientId)).
  { intros (H1 & H2 & H3). repeat split; assumption. }
  clear Hempty.
  destruct (EmrComponent.paramGet "id" pm) as [patientId |] eqn:Hid.
  - destruct (string_dec patientId "") as [-> | Hne].
    + rewrite (ngOnInit_empty_id pm c w Hid). cbn. auto.
    + destruct (string_dec (MedicalRecordService.mysqlUrl (service w)) "") as [Hu | Hu].
      * rewrite (ngOnInit_threw pm patientId c w Hid Hne Hu). cbn. auto.
      * rewrite (ngOnInit_fetches pm patientId c w Hid Hne Hu). cbn [fst snd service].
        split; [reflexivity |]. split; [reflexivity |].
        right. exists patientId. split; [reflexivity |].
        unfold sent. cbn [inflight]. rewrite map_app. reflexivity.
  - rewrite (ngOnInit_no_id pm c w Hid). cbn. auto.
Qed.

Lemma ngOnInit_all_or_nothing_witness :
  EmrComponent.ngOnInit [("id", "")] (EmrComponent.constructor, EmrSamples.urlCleared)
  = (Ret tt, (EmrComponent.constructor, EmrSamples.urlCleared)).
Proof.
  exact (proj2 (proj2 (proj2 (ngOnInit_all_or_nothing [("id", "")]
                                EmrComponent.constructor EmrSamples.urlCleared)))
           eq_refl).
Defined.

Lemma earlier_fetch_ret o k r (c : EmrComponentEarlier.t)
    (w : World EmrComponentEarlier.Callback) :
  o (service w) = (Ret r, service w) ->
  EmrComponentEarlier.fetch o k (c, w)
  = (Ret tt, (c, {| service := service w; inflight := inflight w ++ [(r, k)] |})).
Proof.
  intros H. unfold EmrComponentEarlier.fetch, bind, onSnd, onService, subscribe, modify.
  cbn. rewrite H. reflexivity.
Qed.

(** X10. The earlier version of the EMR view asks for less: for a
    non-empty patient id and a non-empty stored URL its [ngOnInit] sends
    exactly the first two of the seven requests of the later version, the
    patient's record and the patient's encounters, and it too sends nothing
    without an id. *)
Theorem earlier_ngOnInit (pm : EmrComponent.ParamMap) (c : EmrComponentEarlier.t)
    (w : World EmrComponentEarlier.Callback) :
  (forall patientId,
      EmrComponent.paramGet "id" pm = Some patientId ->
      patientId <> "" ->
      MedicalRecordService.mysqlUrl (service w) <> "" ->
      EmrComponentEarlier.ngOnInit pm (c, w)
      = (Ret tt,
         (c, {| service := service w;
                inflight := inflight w ++
                  combine
                    (firstn 2
                       (EmrComponent.patientFetches
                          (MedicalRecordService.baseUrl (service w))
                          (MedicalRecordService.mysqlUrl (service w)) patientId))
                    [EmrComponentEarlier.SetPatient;
                     EmrComponentEarlier.SetEncounters] |})))
  /\ (EmrComponent.paramGet "id" pm = None ->
      EmrComponentEarlier.ngOnInit pm (c, w) = (Ret tt, (c, w))).
Proof.
  split.
  - intros patientId Hid Hne Hu. unfold EmrComponentEarlier.ngOnInit. rewrite Hid.
    destruct patientId as [| a p]; [congruence |]. cbn [Js.truthy].
    unfold EmrComponentEarlier.fetchPatientDetails,
      EmrComponentEarlier.fetchPatientEncounters,
      MedicalRecordService.getPatientEMR, MedicalRecordService.getPatientEncounters.
    erewrite bind_ret;
      [| apply earlier_fetch_ret; cbn [service]; apply getWith_set; exact Hu].
    erewrite earlier_fetch_ret; [| cbn [service]; apply getWith_set; exact Hu].
    cbn [service inflight]. rewrite <- app_assoc. reflexivity.
  - intros Hid. unfold EmrComponentEarlier.ngOnInit. rewrite Hid. reflexivity.
Qed.

Lemma earlier_ngOnInit_witness :
  sent (snd (snd (EmrComponentEarlier.ngOnInit EmrSamples.routeP1
                    (EmrComponentEarlier.constructor, boot))))
  = [Http.GET "http://127.0.0.1:5000/search_patient"
       [("mysql_url", "mysql+pymysql://root@localhost:3306/healthcare_db");
        ("patient_id", "p1")];
     Http.GET "http://127.0.0.1:5000/get_user_encounters"
       [("mysql_url", "mysql+pymysql://root@localhost:3306/healthcare_db");
        ("patient_id", "p1")]].
Proof.
  rewrite (proj1 (earlier_ngOnInit EmrSamples.routeP1 EmrComponentEarlier.constructor
                    boot) "p1" eq_refl).
  - reflexivity.
  - discriminate.
  - cbn. discriminate.
Defined.

(** ** The patients component *)

Section PatientsMore.

Import PatientsComponent.

Lemma filter_sublist {A} (f g : A -> bool) (l : list A) :
  (forall a, f a = true -> g a = true) ->
  sublist (List.filter f l) (List.filter g l).
Proof.
  intros Hfg. induction l as [| a l IH]; cbn; [constructor |].
  destruct (f a) eqn:Ef.
  - rewrite (Hfg a Ef). apply sublist_skip, IH.
  - destruct (g a); [apply sublist_cons, IH | exact IH].
Qed.

Lemma includes_inner (s x q y : string) :
  Js.includes s (x +:+ q +:+ y) = true -> Js.includes s q = true.
Proof.
  rewrite !includes_substring. intros (before & after & ->).
  exists (before +:+ x), (y +:+ after). rewrite !append_assoc. reflexivity.
Qed.

Lemma noRepeat_from (prev : option string) (l : list (option string)) :
  noRepeat (prev :: distinctUntilChangedFrom prev l).
Proof.
  revert prev. induction l as [| x l IH]; intros prev; cbn; [exact I |].
  case_bool_decide as E.
  - apply IH.
  - split; [congruence |]. apply IH.
Qed.

Lemma sublist_from (prev : option string) (l : list (option string)) :
  sublist (distinctUntilChangedFrom prev l) l.
Proof.
  revert prev. induction l as [| x l IH]; intros prev; cbn; [constructor |].
  case_bool_decide; [apply sublist_cons | apply sublist_skip]; apply IH.
Qed.

Lemma from_noRepeat (prev : option string) (l : list (option string)) :
  noRepeat (prev :: l) -> distinctUntilChangedFrom prev l = l.
Proof.
  revert prev. induction l as [| x l IH]; intros prev; [reflexivity |].
  intros [Hne Hl]. cbn [distinctUntilChangedFrom].
  rewrite bool_decide_eq_false_2 by congruence. rewrite (IH x Hl). reflexivity.
Qed.

End PatientsMore.

(** X11. Typing more narrows the list, for queries of Basic Latin: when
    such a query is extended, at either end, the list shown is a sublist
    of the list that was shown for the shorter query, whatever the names
    of the patients. (Outside Basic Latin it need not: see
    [filteredPatients_greek] and the counterexample of C1.) *)
Theorem longer_query_narrows (L : Js.Lowering) (c : PatientsComponent.t)
    (x q y : string) :
  Js.isBasicLatin (x +:+ q +:+ y) = true ->
  sublist (PatientsComponent.filteredPatients c (Some (x +:+ q +:+ y)))
          (PatientsComponent.filteredPatients c (Some q)).
Proof.
  intros H.
  pose proof H as H'. rewrite !isBasicLatin_append in H'.
  apply andb_true_iff in H' as [_ H']. apply andb_true_iff in H' as [Hq _].
  unfold PatientsComponent.filteredPatients, PatientsComponent.filterStage,
    PatientsComponent.defaulted, Js.nullish.
  apply filter_sublist. intros patient.
  rewrite (Js.toLowerCase_basicLatin _ H), (Js.toLowerCase_basicLatin _ Hq).
  rewrite !lowerBasicLatin_append. apply includes_inner.
Qed.

Lemma longer_query_narrows_witness :
  sublist (PatientsComponent.filteredPatients (L := Js.sampleLowering)
             PatientsComponent.three (Some ("A" +:+ "li" +:+ "ce")))
          (PatientsComponent.filteredPatients (L := Js.sampleLowering)
             PatientsComponent.three (Some "li")).
Proof.
  exact (longer_query_narrows Js.sampleLowering PatientsComponent.three
           "A" "li" "ce" eq_refl).
Defined.

(** X12. For queries of Basic Latin the case of the letters does not
    matter: a query and the same query with some of its letters A..Z in
    the other case show the same list, whatever the names of the
    patients. *)
Theorem query_case_irrelevant (L : Js.Lowering) (c : PatientsComponent.t)
    (q q' : string) :
  Js.isBasicLatin q = true ->
  PatientsComponent.equalIgnoringCase q q' ->
  PatientsComponent.filteredPatients c (Some q)
  = PatientsComponent.filteredPatients c (Some q').
Proof.
  intros Hq H.
  assert (Hq' : Js.isBasicLatin q' = true)
    by (rewrite <- (equalIgnoringCase_basicLatin q q' H); exact Hq).
  apply lowerBasicLatin_equalIgnoringCase in H.
  unfold PatientsComponent.filteredPatients, PatientsComponent.filterStage,
    PatientsComponent.defaulted, Js.nullish.
  rewrite (Js.toLowerCase_basicLatin _ Hq), (Js.toLowerCase_basicLatin _ Hq'), H.
  reflexivity.
Qed.

Lemma query_case_irrelevant_witness :
  PatientsComponent.filteredPatients (L := Js.sampleLowering)
    PatientsComponent.three (Some "sT")
  = PatientsComponent.filteredPatients (L := Js.sampleLowering)
      PatientsComponent.three (Some "St").
Proof.
  refine (query_case_irrelevant Js.sampleLowering PatientsComponent.three
            "sT" "St" eq_refl _).
  apply lowerBasicLatin_equalIgnoringCase. reflexivity.
Defined.

(** X13. What the pipe of the patients view computes: the lists shown are
    the filter applied, in order, to values that came through the
    debounce, the initial empty string included; a value equal to the one
    before it is not computed again, and when no two neighbours are equal
    every value is computed. A value that returns after another one is
    computed again. *)
Theorem stream_skips_repeats (L : Js.Lowering)
    (debounce : list (option string) -> list (option string))
    (c : PatientsComponent.t) (valueChanges : list (option string)) :
  exists queries,
    PatientsComponent.filteredPatientsStream debounce c valueChanges
    = map (PatientsComponent.filteredPatients c) queries
    /\ PatientsComponent.noRepeat queries
    /\ sublist queries (debounce (Some "" :: valueChanges))
    /\ (PatientsComponent.noRepeat (debounce (Some "" :: valueChanges)) ->
        queries = debounce (Some "" :: valueChanges)).
Proof.
  exists (PatientsComponent.distinctUntilChanged (debounce (Some "" :: valueChanges))).
  split.
  - unfold PatientsComponent.filteredPatientsStream, PatientsComponent.startWith.
    rewrite map_map. reflexivity.
  - destruct (debounce (Some "" :: valueChanges)) as [| x l];
      cbn [PatientsComponent.distinctUntilChanged].
    + split; [exact I |]. split; [constructor | reflexivity].
    + split; [apply noRepeat_from |]. split; [apply sublist_skip, sublist_from |].
      intros H. rewrite (from_noRepeat x l H). reflexivity.
Qed.

Lemma stream_skips_repeats_witness :
  exists queries,
    PatientsComponent.filteredPatientsStream (L := Js.sampleLowering)
      (fun l => l) PatientsComponent.three [Some "a"; None; Some "a"]
    = map (PatientsComponent.filteredPatients (L := Js.sampleLowering)
             PatientsComponent.three) queries
    /\ queries = [Some ""; Some "a"; None; Some "a"].
Proof.
  destruct (stream_skips_repeats Js.sampleLowering (fun l => l)
              PatientsComponent.three
              [Some "a"; None; Some "a"]) as (queries & H1 & _ & _ & H4).
  exists queries. split; [exact H1 |]. apply H4.
  cbn. repeat split; discriminate.
Defined.

(** X14. Once the patients have arrived the view starts from the whole
    response: for the initial empty string, and for a null value of the
    control, the list shown is exactly the response, in its order, whatever
    the component held before. The request that brings them is the one GET
    to [/patients], with the stored URL as its only parameter. *)
Theorem patients_arrive (L : Js.Lowering) (c : PatientsComponent.t)
    (w : World PatientsComponent.Callback) (res : list PatientsComponent.PatientRow) :
  PatientsComponent.filteredPatients (PatientsComponent.loaded res c) (Some "") = res
  /\ PatientsComponent.filteredPatients (PatientsComponent.loaded res c) None = res
  /\ (MedicalRecordService.mysqlUrl (service w) <> "" ->
      PatientsComponent.ngOnInit (c, w)
      = (Ret tt,
         (c, {| service := service w;
                inflight := inflight w ++
                  [(Http.GET (MedicalRecordService.baseUrl (service w) +:+ "/patients")
                      [("mysql_url", MedicalRecordService.mysqlUrl (service w))],
                    PatientsComponent.PatientsLoaded)] |}))).
Proof.
  assert (Hall : PatientsComponent.filteredPatients (PatientsComponent.loaded res c)
                   (Some "") = res).
  { unfold PatientsComponent.filteredPatients, PatientsComponent.filterStage.
    cbn [PatientsComponent.patients PatientsComponent.loaded
         PatientsComponent.defaulted Js.nullish].
    apply filter_all. intros patient. rewrite toLowerCase_empty.
    apply includes_empty. }
  split; [exact Hall |]. split; [exact Hall |].
  intros Hu. unfold PatientsComponent.ngOnInit, MedicalRecordService.getAllPatients.
  unfold bind at 1. unfold onSnd, onService. cbn [fst snd].
  unfold bind at 1. rewrite (validate_set _ Hu).
  unfold bind, MedicalRecordService.endpoint, gets, ret, subscribe, modify.
  cbn. reflexivity.
Qed.

Lemma patients_arrive_witness :
  PatientsComponent.ngOnInit (PatientsComponent.constructor, boot)
  = (Ret tt,
     (PatientsComponent.constructor,
      {| service := MedicalRecordService.constructor;
         inflight :=
           [(Http.GET "http://127.0.0.1:5000/patients"
               [("mysql_url", "mysql+pymysql://root@localhost:3306/healthcare_db")],
             PatientsComponent.PatientsLoaded)] |})).
Proof.
  refine (proj2 (proj2 (patients_arrive Js.sampleLowering
                          PatientsComponent.constructor boot [])) _).
  cbn. discriminate.
Defined.

(** ** The population dashboard *)

Section DashboardMore.

Import PopulationDashboardComponent.

(** What [createCharts] does on every component: it draws the charts of
    the plan up to the first missing field and logs once if one is
    missing. *)
Lemma createCharts_exact (s : t) :
  createCharts s
  = (Ret tt,
     {| dashboardData := dashboardData s;
        charts := charts s ++
          match dashboardData s with
          | Some d => untilMissing (chartPlan d)
          | None => []
          end;
        console := console s ++
          if match dashboardData s with
             | Some d => noneMissing (chartPlan d)
             | None => false
             end
          then [] else ["Failed to create chart:"] |}).
Proof.
  destruct s as [[[g cc im en ms tc] |] ch co].
  - destruct g, cc, im, en, ms, tc; cbn;
      rewrite <- ?app_assoc, ?app_nil_r; reflexivity.
  - cbn. rewrite app_nil_r. reflexivity.
Qed.

Lemma untilMissing_prefix {A} (before : list A) (rest : list (option A)) :
  untilMissing (map Some before ++ None :: rest) = before
  /\ noneMissing (map Some before ++ None :: rest) = false.
Proof.
  induction before as [| a before [IH1 IH2]]; cbn; [split; reflexivity |].
  rewrite IH1. split; [reflexivity | exact IH2].
Qed.

Lemma length_untilMissing {A} (l : list (option A)) :
  length (untilMissing l) <= length l
  /\ (noneMissing l = true <-> length (untilMissing l) = length l).
Proof.
  induction l as [| [a |] l [IH1 IH2]]; cbn.
  - split; [lia | tauto].
  - split; [lia |]. rewrite IH2. lia.
  - split; [lia |]. split; [discriminate | lia].
Qed.

End DashboardMore.

(** X15. [createCharts] never throws, whatever the component holds: the
    [try] block catches every failure. It leaves the data as it is, keeps
    the charts and the console lines that were there, draws at most six
    charts and logs at most one line, and it logs exactly when it drew
    fewer than six. *)
Theorem createCharts_never_throws (s : PopulationDashboardComponent.t) :
  exists drawn logged,
    PopulationDashboardComponent.createCharts s
    = (Ret tt,
       {| PopulationDashboardComponent.dashboardData :=
            PopulationDashboardComponent.dashboardData s;
          PopulationDashboardComponent.charts :=
            PopulationDashboardComponent.charts s ++ drawn;
          PopulationDashboardComponent.console :=
            PopulationDashboardComponent.console s ++ logged |})
    /\ length drawn <= 6
    /\ (length drawn = 6 /\ logged = []
        \/ length drawn < 6 /\ logged = ["Failed to create chart:"]).
Proof.
  eexists. eexists. split; [apply createCharts_exact |].
  destruct (PopulationDashboardComponent.dashboardData s) as [d |].
  - destruct (length_untilMissing (PopulationDashboardComponent.chartPlan d))
      as [Hle Hiff].
    change (length (PopulationDashboardComponent.chartPlan d)) with 6 in *.
    split; [exact Hle |].
    destruct (PopulationDashboardComponent.noneMissing
                (PopulationDashboardComponent.chartPlan d)) eqn:E.
    + left. split; [apply Hiff; reflexivity | reflexivity].
    + right. split; [| reflexivity].
      destruct (Nat.eq_dec
                  (length (PopulationDashboardComponent.untilMissing
                             (PopulationDashboardComponent.chartPlan d))) 6)
        as [H6 | H6]; [apply Hiff in H6; discriminate | lia].
  - cbn. split; [lia |]. right. split; [lia | reflexivity].
Qed.

(** X16. The charts are drawn in the order of the source and the first
    field that the response lacks stops the drawing: the charts before it
    are drawn, one line is logged, and the charts after it are not drawn
    even when their fields are there. *)
Theorem createCharts_stops_at_missing
    (s : PopulationDashboardComponent.t) (d : PopulationDashboardComponent.DashboardData)
    (before : list PopulationDashboardComponent.Chart)
    (rest : list (option PopulationDashboardComponent.Chart)) :
  PopulationDashboardComponent.dashboardData s = Some d ->
  PopulationDashboardComponent.chartPlan d = map Some before ++ None :: rest ->
  PopulationDashboardComponent.createCharts s
  = (Ret tt,
     {| PopulationDashboardComponent.dashboardData := Some d;
        PopulationDashboardComponent.charts :=
          PopulationDashboardComponent.charts s ++ before;
        PopulationDashboardComponent.console :=
          PopulationDashboardComponent.console s ++ ["Failed to create chart:"] |}).
Proof.
  intros Hd Hplan. rewrite createCharts_exact, Hd, Hplan.
  destruct (untilMissing_prefix before rest) as [-> ->]. reflexivity.
Qed.

Lemma createCharts_stops_at_missing_witness :
  PopulationDashboardComponent.createCharts
    {| PopulationDashboardComponent.dashboardData :=
         Some PopulationDashboardComponent.partial;
       PopulationDashboardComponent.charts := [];
       PopulationDashboardComponent.console := [] |}
  = (Ret tt,
     {| PopulationDashboardComponent.dashboardData :=
          Some PopulationDashboardComponent.partial;
        PopulationDashboardComponent.charts :=
          [] ++ PopulationDashboardComponent.untilMissing
                  (PopulationDashboardComponent.chartPlan
                     PopulationDashboardComponent.partial);
        PopulationDashboardComponent.console := [] ++ ["Failed to create chart:"] |}).
Proof.
  exact (createCharts_stops_at_missing
           {| PopulationDashboardComponent.dashboardData :=
                Some PopulationDashboardComponent.partial;
              PopulationDashboardComponent.charts := [];
              PopulationDashboardComponent.console := [] |}
           PopulationDashboardComponent.partial
           (PopulationDashboardComponent.untilMissing
              (PopulationDashboardComponent.chartPlan
                 PopulationDashboardComponent.partial))
           (skipn 3 (PopulationDashboardComponent.chartPlan
                       PopulationDashboardComponent.partial))
           eq_refl eq_refl).
Defined.

(** X17. Both callers of [createCharts] guard it. On a component that has
    no data yet [ngAfterViewInit] does nothing. The [next] callback logs
    the body of every response; with a null body it then draws nothing and
    logs no failure, whereas [createCharts] itself would log one there;
    with a body it stores it and draws from it, up to the first missing
    field. *)
Theorem drawing_is_guarded
    (inspect : option PopulationDashboardComponent.DashboardData -> string)
    (s : PopulationDashboardComponent.t) :
  PopulationDashboardComponent.dashboardData s = None ->
  PopulationDashboardComponent.ngAfterViewInit s = (Ret tt, s)
  /\ PopulationDashboardComponent.next inspect None s
     = (Ret tt,
        {| PopulationDashboardComponent.dashboardData := None;
           PopulationDashboardComponent.charts := PopulationDashboardComponent.charts s;
           PopulationDashboardComponent.console :=
             PopulationDashboardComponent.console s ++ [inspect None] |})
  /\ PopulationDashboardComponent.console
       (snd (PopulationDashboardComponent.createCharts s))
     = PopulationDashboardComponent.console s ++ ["Failed to create chart:"]
  /\ (forall d,
         PopulationDashboardComponent.next inspect (Some d) s
         = (Ret tt,
            {| PopulationDashboardComponent.dashboardData := Some d;
               PopulationDashboardComponent.charts :=
                 PopulationDashboardComponent.charts s
                 ++ PopulationDashboardComponent.untilMissing
                      (PopulationDashboardComponent.chartPlan d);
               PopulationDashboardComponent.console :=
                 (PopulationDashboardComponent.console s ++ [inspect (Some d)])
                 ++ if PopulationDashboardComponent.noneMissing
                         (PopulationDashboardComponent.chartPlan d)
                    then [] else ["Failed to create chart:"] |})).
Proof.
  intros Hd. destruct s as [dd ch co]. cbn in Hd. subst dd.
  split; [reflexivity |]. split; [reflexivity |]. split.
  - rewrite createCharts_exact. reflexivity.
  - intros d.
    unfold PopulationDashboardComponent.next,
      PopulationDashboardComponent.consoleLog, bind, modify, gets.
    cbn [Js.truthy_obj PopulationDashboardComponent.dashboardData
         PopulationDashboardComponent.charts PopulationDashboardComponent.console].
    rewrite createCharts_exact. reflexivity.
Qed.

Lemma drawing_is_guarded_witness :
  PopulationDashboardComponent.ngAfterViewInit PopulationDashboardComponent.constructor
  = (Ret tt, PopulationDashboardComponent.constructor)
  /\ PopulationDashboardComponent.next (fun _ => "null") None
       PopulationDashboardComponent.constructor
     = (Ret tt,
        {| PopulationDashboardComponent.dashboardData := None;
           PopulationDashboardComponent.charts := [];
           PopulationDashboardComponent.console := [] ++ ["null"] |}).
Proof.
  split.
  - exact (proj1 (drawing_is_guarded (fun _ => "null")
                    PopulationDashboardComponent.constructor eq_refl)).
  - exact (proj1 (proj2 (drawing_is_guarded (fun _ => "null")
                           PopulationDashboardComponent.constructor eq_refl))).
Defined.
